(** * Image style transfer front end: page script and asset cache worker

    A shallow embedding of the two scripts of the application:

    - the page script (upload handler, generation controller, download
      handler), whose state is the DOM elements it looks up at start-up and
      the two module-level variables [base64ImageData] and [mimeType];
    - the service worker [sw.js] (install and fetch listeners).

    JavaScript values that may be [null] or [undefined] are kept as such,
    the [hidden] class is kept in the element's class list, and every
    [await] splits a handler into the part that runs up to the suspension
    and the part that runs when the awaited promise settles, so that other
    events can be dispatched in between as the browser's event loop does. *)

From Stdlib Require Import String Ascii List Bool NArith Lia DecimalString.
Import ListNotations.
Local Open Scope string_scope.

(** ** JavaScript values and strings *)

Module Js.

(** The values the two application variables and the fields of a response
    part can hold. *)
Inductive value : Type :=
| Null
| Undefined
| Str (s : string).

(** ToBoolean: [null], [undefined] and the empty string are falsy. *)
Definition truthy (v : value) : bool :=
  match v with
  | Null | Undefined => false
  | Str s => negb (s =? "")
  end.

(** ToString, as a template literal applies it to an interpolated value. *)
Definition to_string (v : value) : string :=
  match v with
  | Null => "null"
  | Undefined => "undefined"
  | Str s => s
  end.

(** [s.startsWith(p)] *)
Definition startsWith (p s : string) : bool := String.prefix p s.

(** Splits [s] at every occurrence of the one-character separator [sep];
    [cur] accumulates the piece being read.  The result is never empty:
    [''.split(',')] is [['']]. *)
Fixpoint split_go (sep : ascii) (s : string) (cur : string) : list string :=
  match s with
  | EmptyString => [cur]
  | String c s' =>
      if Ascii.eqb c sep then cur :: split_go sep s' ""
      else split_go sep s' (cur ++ String c "")
  end.

(** [s.split(sep)] for a separator of length one. *)
Definition split (sep : ascii) (s : string) : list string := split_go sep s "".

(** [arr[i]] on an array of strings: [undefined] out of range. *)
Definition index (arr : list string) (i : nat) : value :=
  match nth_error arr i with
  | Some s => Str s
  | None => Undefined
  end.

(** [a || b] on values, with [b] a string constant. *)
Definition or_default (a : value) (b : string) : string :=
  if truthy a then to_string a else b.

(** Decimal rendering of a non-negative integer, as [`${n}`] gives it. *)
Definition of_N (n : N) : string := NilZero.string_of_uint (N.to_uint n).

End Js.

(** ** The DOM elements the page script uses *)

(** The eleven elements fetched with [getElementById] at start-up.  The
    listeners are attached only in the branch where all eleven lookups
    succeeded, so inside a handler every element exists and the guards at the
    head of [showError] and [setLoading] never fire. *)
Inductive ElemId : Type :=
| imageUpload | uploadLabel | cameraBtn | imagePreview | previewPlaceholder
| styleSelect | generateBtn | loader | generatedImage | outputPlaceholder
| downloadBtn.

Definition ElemId_eqb (a b : ElemId) : bool :=
  match a, b with
  | imageUpload, imageUpload | uploadLabel, uploadLabel
  | cameraBtn, cameraBtn | imagePreview, imagePreview
  | previewPlaceholder, previewPlaceholder | styleSelect, styleSelect
  | generateBtn, generateBtn | loader, loader
  | generatedImage, generatedImage | outputPlaceholder, outputPlaceholder
  | downloadBtn, downloadBtn => true
  | _, _ => false
  end.

(** The properties of an element that the script reads or writes. *)
Record Element : Type := mkElement {
  classList : list string;
  disabled : bool;
  src : string;
  textContent : string;
  styleColor : string;
  attributes : list (string * string);
  value : string
}.

(** [classList.add(c)]: a class list is a set. *)
Definition class_add (c : string) (cl : list string) : list string :=
  if existsb (String.eqb c) cl then cl else cl ++ [c].

(** [classList.remove(c)] *)
Definition class_remove (c : string) (cl : list string) : list string :=
  filter (fun x => negb (String.eqb c x)) cl.

(** [classList.contains(c)] *)
Definition class_contains (c : string) (cl : list string) : bool :=
  existsb (String.eqb c) cl.

(** [setAttribute(name, v)] *)
Definition attr_set (name v : string) (l : list (string * string))
  : list (string * string) :=
  (name, v) :: filter (fun p => negb (String.eqb name (fst p))) l.

(** [removeAttribute(name)] *)
Definition attr_remove (name : string) (l : list (string * string))
  : list (string * string) :=
  filter (fun p => negb (String.eqb name (fst p))) l.

(** An element is off screen when it carries the [hidden] class. *)
Definition is_hidden (e : Element) : bool :=
  class_contains "hidden" (classList e).

Definition Dom : Type := ElemId -> Element.

(** One write to the DOM, as one statement of the script performs it. *)
Inductive DomOp : Type :=
| ClassAdd (e : ElemId) (c : string)
| ClassRemove (e : ElemId) (c : string)
| SetDisabled (e : ElemId) (b : bool)
| SetSrc (e : ElemId) (s : string)
| SetTextContent (e : ElemId) (s : string)
| SetStyleColor (e : ElemId) (s : string)
| SetAttribute (e : ElemId) (name v : string)
| RemoveAttribute (e : ElemId) (name : string)
| SetValue (e : ElemId) (s : string).

Definition op_target (op : DomOp) : ElemId :=
  match op with
  | ClassAdd e _ | ClassRemove e _ | SetDisabled e _ | SetSrc e _
  | SetTextContent e _ | SetStyleColor e _ | SetAttribute e _ _
  | RemoveAttribute e _ | SetValue e _ => e
  end.

Definition op_on (op : DomOp) (x : Element) : Element :=
  match op with
  | ClassAdd _ c =>
      mkElement (class_add c (classList x)) (disabled x) (src x)
        (textContent x) (styleColor x) (attributes x) (value x)
  | ClassRemove _ c =>
      mkElement (class_remove c (classList x)) (disabled x) (src x)
        (textContent x) (styleColor x) (attributes x) (value x)
  | SetDisabled _ b =>
      mkElement (classList x) b (src x)
        (textContent x) (styleColor x) (attributes x) (value x)
  | SetSrc _ s =>
      mkElement (classList x) (disabled x) s
        (textContent x) (styleColor x) (attributes x) (value x)
  | SetTextContent _ s =>
      mkElement (classList x) (disabled x) (src x)
        s (styleColor x) (attributes x) (value x)
  | SetStyleColor _ s =>
      mkElement (classList x) (disabled x) (src x)
        (textContent x) s (attributes x) (value x)
  | SetAttribute _ n v =>
      mkElement (classList x) (disabled x) (src x)
        (textContent x) (styleColor x) (attr_set n v (attributes x)) (value x)
  | RemoveAttribute _ n =>
      mkElement (classList x) (disabled x) (src x)
        (textContent x) (styleColor x) (attr_remove n (attributes x)) (value x)
  | SetValue _ s =>
      mkElement (classList x) (disabled x) (src x)
        (textContent x) (styleColor x) (attributes x) s
  end.

Definition apply_op (op : DomOp) (d : Dom) : Dom :=
  fun e => if ElemId_eqb e (op_target op) then op_on op (d e) else d e.

(** ** The remote generation call *)

Module Api.

Inductive Modality : Type := IMAGE | TEXT.

(** [{ data, mimeType }] *)
Record InlineData : Type := mkInlineData {
  data : Js.value;
  mimeType : Js.value
}.

(** A part of a request or of a response: an object that may carry
    [inlineData], [text], both or neither. *)
Record Part : Type := mkPart {
  inlineData : option InlineData;
  text : option string
}.

Record Content : Type := mkContent { parts : option (list Part) }.
Record Candidate : Type := mkCandidate { content : option Content }.
Record Response : Type := mkResponse { candidates : option (list Candidate) }.

(** The argument of [ai.models.generateContent]. *)
Record Params : Type := mkParams {
  model : string;
  contents_parts : list Part;
  responseModalities : list Modality
}.

(** How the awaited call settles: it rejects (network or API error) or it
    resolves with a response. *)
Inductive Outcome : Type :=
| Threw (error : string)
| Returned (r : Response).

(** [response.candidates?.[0]?.content?.parts || []] *)
Definition parts_of (r : Response) : list Part :=
  match candidates r with
  | Some (c :: _) =>
      match content c with
      | Some ct =>
          match parts ct with
          | Some ps => ps
          | None => []
          end
      | None => []
      end
  | _ => []
  end.

End Api.

(** ** Reading the selected file *)

(** A [File]; the script reads only its [type]. *)
Record File : Type := mkFile { file_type : string }.

(** What the [FileReader] does after [readAsDataURL]: it loads the data URL
    ([load], then [loadend] with a string result), fails ([error], then
    [loadend] with a [null] result) or is aborted ([loadend] with a [null]
    result). *)
Inductive ReadOutcome : Type :=
| Loaded (dataUrl : string)
| Failed (error : string)
| Aborted.

(** A settled promise. *)
Inductive Settled (A : Type) : Type :=
| Resolved (a : A)
| Rejected (error : string).
Arguments Resolved {A} a.
Arguments Rejected {A} error.

(** A promise is pending ([None]) or settled; [resolve] and [reject] act
    only on a pending promise. *)
Definition resolve {A} (a : A) (p : option (Settled A)) : option (Settled A) :=
  match p with None => Some (Resolved a) | Some _ => p end.

Definition reject {A} (error : string) (p : option (Settled A))
  : option (Settled A) :=
  match p with None => Some (Rejected error) | Some _ => p end.

(** [reader.onloadend] *)
Definition onloadend (file : File) (result : Js.value)
  (p : option (Settled Api.InlineData)) : option (Settled Api.InlineData) :=
  match result with
  | Js.Str s =>
      let base64Data := Js.index (Js.split "," s) 1 in
      resolve (Api.mkInlineData base64Data (Js.Str (file_type file))) p
  | _ => reject "Failed to read file as string." p
  end.

(** [reader.onerror] *)
Definition onerror (error : string) (p : option (Settled Api.InlineData))
  : option (Settled Api.InlineData) :=
  reject error p.

(** [fileToGenerativePart(file)], given what the reader does. *)
Definition fileToGenerativePart (file : File) (r : ReadOutcome)
  : option (Settled Api.InlineData) :=
  match r with
  | Loaded dataUrl => onloadend file (Js.Str dataUrl) None
  | Failed error => onloadend file Js.Null (onerror error None)
  | Aborted => onloadend file Js.Null None
  end.

(** ** The state of the page *)

Record World : Type := mkWorld {
  dom : Dom;
  base64ImageData : Js.value;
  mimeType : Js.value;
  (** every write to the DOM so far, oldest first *)
  journal : list DomOp;
  (** [console.error] messages *)
  console : list string;
  (** the messages handed to [showError] so far, oldest first *)
  shown : list string;
  (** every [generateContent] call issued so far, oldest first *)
  sent : list Api.Params;
  (** downloads triggered: [href] and [download] of the synthetic link *)
  saved : list (string * string);
  (** file reads started and not yet settled *)
  reading : list File;
  (** [generateContent] calls issued and not yet settled *)
  inFlight : list Api.Params
}.

Definition exec (op : DomOp) (w : World) : World :=
  mkWorld (apply_op op (dom w)) (base64ImageData w) (mimeType w)
    (journal w ++ [op]) (console w) (shown w) (sent w) (saved w) (reading w)
    (inFlight w).

Definition set_upload (d m : Js.value) (w : World) : World :=
  mkWorld (dom w) d m
    (journal w) (console w) (shown w) (sent w) (saved w) (reading w)
    (inFlight w).

Definition console_error (msg : string) (w : World) : World :=
  mkWorld (dom w) (base64ImageData w) (mimeType w)
    (journal w) (console w ++ [msg]) (shown w) (sent w) (saved w) (reading w)
    (inFlight w).

Definition note_error (msg : string) (w : World) : World :=
  mkWorld (dom w) (base64ImageData w) (mimeType w)
    (journal w) (console w) (shown w ++ [msg]) (sent w) (saved w) (reading w)
    (inFlight w).

Definition start_read (f : File) (w : World) : World :=
  mkWorld (dom w) (base64ImageData w) (mimeType w)
    (journal w) (console w) (shown w) (sent w) (saved w) (reading w ++ [f])
    (inFlight w).

Definition set_reading (l : list File) (w : World) : World :=
  mkWorld (dom w) (base64ImageData w) (mimeType w)
    (journal w) (console w) (shown w) (sent w) (saved w) l (inFlight w).

Definition generateContent (p : Api.Params) (w : World) : World :=
  mkWorld (dom w) (base64ImageData w) (mimeType w)
    (journal w) (console w) (shown w) (sent w ++ [p]) (saved w) (reading w)
    (inFlight w ++ [p]).

Definition set_inFlight (l : list Api.Params) (w : World) : World :=
  mkWorld (dom w) (base64ImageData w) (mimeType w)
    (journal w) (console w) (shown w) (sent w) (saved w) (reading w) l.

Definition save_link (href download : string) (w : World) : World :=
  mkWorld (dom w) (base64ImageData w) (mimeType w)
    (journal w) (console w) (shown w) (sent w) (saved w ++ [(href, download)])
    (reading w) (inFlight w).

(** Statements run one after the other. *)
Definition seq (f g : World -> World) : World -> World := fun w => g (f w).
Notation "f ;; g" := (seq f g) (at level 61, right associativity).

(** ** The page script *)

(** [showError(message)] *)
Definition showError (message : string) : World -> World :=
  note_error message ;;
  exec (SetTextContent outputPlaceholder ("Error: " ++ message)) ;;
  exec (SetStyleColor outputPlaceholder "var(--error-color)") ;;
  exec (ClassRemove outputPlaceholder "hidden") ;;
  exec (ClassAdd generatedImage "hidden") ;;
  exec (ClassAdd downloadBtn "hidden").

(** [setLoading(isLoading)] *)
Definition setLoading (isLoading : bool) : World -> World :=
  exec (SetDisabled generateBtn isLoading) ;;
  exec (SetDisabled cameraBtn isLoading) ;;
  (if isLoading
   then exec (SetAttribute uploadLabel "aria-disabled" "true")
   else exec (RemoveAttribute uploadLabel "aria-disabled")) ;;
  exec (ClassAdd downloadBtn "hidden") ;;
  (if isLoading
   then exec (ClassRemove loader "hidden") ;;
        exec (ClassAdd generatedImage "hidden") ;;
        exec (ClassAdd outputPlaceholder "hidden")
   else exec (ClassAdd loader "hidden")).

(** [handleImageUpload], up to [await fileToGenerativePart(file)]: [file] is
    [imageUpload.files?.[0]]. *)
Definition handleImageUpload (file : option File) : World -> World :=
  match file with
  | None => fun w => w
  | Some f => start_read f
  end.

(** [handleImageUpload], from the point where the awaited promise settles:
    the rest of the [try] block, or the [catch] block, then [finally]. *)
Definition handleImageUpload_settled (p : Settled Api.InlineData)
  : World -> World :=
  (match p with
   | Resolved part =>
       set_upload (Api.data part) (Api.mimeType part) ;;
       (fun w =>
          exec (SetSrc imagePreview
                  ("data:" ++ Js.to_string (mimeType w) ++ ";base64,"
                   ++ Js.to_string (base64ImageData w))) w) ;;
       exec (ClassRemove imagePreview "hidden") ;;
       exec (ClassAdd previewPlaceholder "hidden") ;;
       exec (SetDisabled generateBtn false)
   | Rejected error =>
       console_error ("Error processing file: " ++ error) ;;
       showError "Could not process the uploaded file."
   end) ;;
  exec (SetValue imageUpload "").

(** The statements of the [for] loop run for a part with [inlineData],
    before [imageFound = true] and [break]. *)
Definition show_result (d : Api.InlineData) : World -> World :=
  exec (SetSrc generatedImage
          ("data:" ++ Js.to_string (Api.mimeType d) ++ ";base64,"
           ++ Js.to_string (Api.data d))) ;;
  exec (ClassRemove generatedImage "hidden") ;;
  exec (ClassAdd outputPlaceholder "hidden") ;;
  exec (ClassRemove downloadBtn "hidden").

(** The [for] loop over the response parts, with its [break]: the result
    says whether an image was found. *)
Fixpoint scan_parts (ps : list Api.Part) (w : World) : bool * World :=
  match ps with
  | [] => (false, w)
  | part :: rest =>
      match Api.inlineData part with
      | Some d => (true, show_result d w)
      | None => scan_parts rest w
      end
  end.

(** [handleGenerateClick], up to [await ai.models.generateContent(...)]. *)
Definition handleGenerateClick (w : World) : World :=
  if negb (Js.truthy (base64ImageData w)) || negb (Js.truthy (mimeType w))
  then showError "Please upload an image first." w
  else
    let w := setLoading true w in
    let selectedStyle := value (dom w styleSelect) in
    let prompt :=
      "Transform this image into a " ++ selectedStyle ++ " style." in
    let imagePart :=
      Api.mkPart (Some (Api.mkInlineData (base64ImageData w) (mimeType w)))
        None in
    let textPart := Api.mkPart None (Some prompt) in
    generateContent
      (Api.mkParams "gemini-2.5-flash-image-preview" [imagePart; textPart]
         [Api.IMAGE; Api.TEXT]) w.

(** [handleGenerateClick], from the point where the awaited call settles:
    the rest of the [try] block, or the [catch] block, then [finally]. *)
Definition handleGenerateClick_settled (o : Api.Outcome) : World -> World :=
  (match o with
   | Api.Returned response =>
       fun w =>
         let (imageFound, w) := scan_parts (Api.parts_of response) w in
         if negb imageFound
         then showError "The model did not return an image. Please try again." w
         else w
   | Api.Threw error =>
       console_error ("API Error: " ++ error) ;;
       showError
         "Failed to generate image. Please check your connection and try again."
   end) ;;
  setLoading false.

(** *** The download handler *)

(** [strip p s] is the rest of [s] after its prefix [p], if [s] starts
    with [p]. *)
Fixpoint strip (p s : string) : option string :=
  match p, s with
  | EmptyString, _ => Some s
  | String a p', String b s' => if Ascii.eqb a b then strip p' s' else None
  | String _ _, EmptyString => None
  end.

(** The longest prefix of [s] without [';'], and what follows it. *)
Fixpoint span_not_semicolon (s : string) : string * string :=
  match s with
  | EmptyString => ("", "")
  | String c s' =>
      if Ascii.eqb c ";" then ("", s)
      else let (m, rest) := span_not_semicolon s' in (String c m, rest)
  end.

(** The regular expression [/data:([^;]+);/] tried at the head of [s]: the
    class [[^;]] cannot step over a [';'], so the greedy group is the whole
    run up to the first [';'], which must exist and be non-empty.  The
    result is the captured group. *)
Definition match_here (s : string) : option string :=
  match strip "data:" s with
  | Some r =>
      match span_not_semicolon r with
      | (String c m, String _ _) => Some (String c m)
      | _ => None
      end
  | None => None
  end.

(** [s.match(/data:([^;]+);/)?.[1]]: the expression is not anchored, so
    the leftmost position where it matches is taken. *)
Fixpoint match_data_mime (s : string) : Js.value :=
  match match_here s with
  | Some m => Js.Str m
  | None =>
      match s with
      | EmptyString => Js.Undefined
      | String _ s' => match_data_mime s'
      end
  end.

(** The file extension the handler derives from the result URL. *)
Definition extension_of (imageUrl : string) : string :=
  let mimeType := Js.or_default (match_data_mime imageUrl) "image/png" in
  Js.or_default (Js.index (Js.split "/" mimeType) 1) "png".

(** [handleDownloadClick]; [now] is the value of [Date.now()].  The [src]
    of the result element reads back as the data URL written to it, and
    [''] when none was written: the browser hands back the parsed URL,
    which is the string written when the media type and the data are
    made of ASCII letters, digits and [+ / = - . _] (the strings of
    [url_inert] below), and differs from it when the string has, for
    instance, a tab or a line feed.  Nothing in the [try] block
    throws. *)
Definition handleDownloadClick (now : N) (w : World) : World :=
  let imageUrl := src (dom w generatedImage) in
  if (imageUrl =? "") || negb (Js.startsWith "data:" imageUrl)
  then
    (console_error "No generated image source available to download." ;;
     showError "No image available to download.") w
  else
    let extension := extension_of imageUrl in
    save_link imageUrl
      ("stylized-image-" ++ Js.of_N now ++ "." ++ extension) w.

(** ** The event loop of the page *)

(** What the browser delivers to the page: user actions, and the settling
    of a pending read or of a pending remote call (the [i]-th of those
    pending, oldest first). *)
Inductive Event : Type :=
| FileChosen (file : option File)
| ReadSettled (i : nat) (r : ReadOutcome)
| GenerateClicked
| GenerateSettled (i : nat) (o : Api.Outcome)
| DownloadClicked (now : N).

(** The list without its [i]-th element. *)
Fixpoint remove_nth {A} (i : nat) (l : list A) : list A :=
  match i, l with
  | _, [] => []
  | O, _ :: l' => l'
  | S i', x :: l' => x :: remove_nth i' l'
  end.

(** One turn of the event loop.  A click on a disabled button fires no
    [click] event, so the generate handler runs only while the button is
    enabled; the file input is never disabled by the script; the settling
    of a read or call that is not pending does not happen. *)
Definition step (w : World) (ev : Event) : World :=
  match ev with
  | FileChosen file => handleImageUpload file w
  | ReadSettled i r =>
      match nth_error (reading w) i with
      | Some file =>
          match fileToGenerativePart file r with
          | Some p =>
              handleImageUpload_settled p
                (set_reading (remove_nth i (reading w)) w)
          | None => w
          end
      | None => w
      end
  | GenerateClicked =>
      if disabled (dom w generateBtn) then w else handleGenerateClick w
  | GenerateSettled i o =>
      match nth_error (inFlight w) i with
      | Some _ =>
          handleGenerateClick_settled o
            (set_inFlight (remove_nth i (inFlight w)) w)
      | None => w
      end
  | DownloadClicked now => handleDownloadClick now w
  end.

(** The page after a sequence of events. *)
Definition run (w : World) (evs : list Event) : World := fold_left step evs w.

(** One upload from the choice of the file to the end of its read, with
    nothing dispatched in between. *)
Definition upload (file : File) (r : ReadOutcome) (w : World) : World :=
  run w [FileChosen (Some file); ReadSettled (length (reading w)) r].

(** One generation attempt from the click to the settling of the remote
    call, with nothing dispatched in between. *)
Definition generate (o : Api.Outcome) (w : World) : World :=
  run w [GenerateClicked; GenerateSettled (length (inFlight w)) o].

(** ** The asset cache worker *)

Module Sw.

Record Request : Type := mkRequest { url : string; method : string }.
Record Response : Type := mkResponse { status : nat; body : string }.

(** A [Cache]: request and response pairs in insertion order. *)
Definition Cache : Type := list (Request * Response).

(** The origin's [CacheStorage]: named caches in creation order. *)
Definition CacheStorage : Type := list (string * Cache).

Definition CACHE_NAME : string := "image-style-transfer-v1".

Definition urlsToCache : list string :=
  [ "/"; "/index.html"; "/index.css"; "/index.js"; "/icon.svg";
    "https://esm.sh/@google/genai@1.0.0" ].

(** The URL without its fragment: what comes before the first ['#']. *)
Fixpoint without_fragment (u : string) : string :=
  match u with
  | EmptyString => ""
  | String c u' =>
      if Ascii.eqb c "#" then "" else String c (without_fragment u')
  end.

(** Whether a stored request answers [req] under the default match
    options: only a [GET] request matches, and the URLs, query string
    included and fragment excluded, are the same.  The responses of this
    model carry no headers, so no [Vary] header narrows the match. *)
Definition request_matches (req stored : Request) : bool :=
  (method req =? "GET")
  && (without_fragment (url stored) =? without_fragment (url req)).

(** [cache.match(req)] *)
Definition cache_match (c : Cache) (req : Request) : option Response :=
  match find (fun e => request_matches req (fst e)) c with
  | Some e => Some (snd e)
  | None => None
  end.

(** [caches.match(req)]: the caches of the storage are tried in creation
    order and the first match is the result. *)
Fixpoint caches_match (cs : CacheStorage) (req : Request) : option Response :=
  match cs with
  | [] => None
  | (_, c) :: cs' =>
      match cache_match c req with
      | Some r => Some r
      | None => caches_match cs' req
      end
  end.

(** The cache called [name], if the storage has one. *)
Definition lookup_cache (name : string) (cs : CacheStorage) : option Cache :=
  match find (fun e => fst e =? name) cs with
  | Some e => Some (snd e)
  | None => None
  end.

(** [cache.put(req, resp)]: replaces the entry that matches [req]. *)
Definition cache_put (req : Request) (resp : Response) (c : Cache) : Cache :=
  (filter (fun e => negb (request_matches req (fst e))) c
   ++ [(req, resp)])%list.

(** The storage with the cache called [name] replaced by [c], or with [c]
    created last under that name. *)
Fixpoint store_cache (name : string) (c : Cache) (cs : CacheStorage)
  : CacheStorage :=
  match cs with
  | [] => [(name, c)]
  | (n, c') :: cs' =>
      if n =? name then (n, c) :: cs' else (n, c') :: store_cache name c cs'
  end.

(** The worker and its surroundings: the cache storage and the requests
    that went to the network, oldest first. *)
Record State : Type := mkState {
  caches : CacheStorage;
  network : list Request
}.

(** [fetch(req)]: the request goes out as it is; [net] is what the network
    answers, [None] for a failure. *)
Definition fetch (net : Request -> option Response) (req : Request)
  (st : State) : option Response * State :=
  (net req, mkState (caches st) (network st ++ [req])%list).

(** [cache.addAll(urls)] fetches every URL and stores the responses only
    if every fetch succeeded with an ok status other than 206 (a partial
    response is refused). *)
Fixpoint fetch_all (net : Request -> option Response) (urls : list string)
  (st : State) : option (list (Request * Response)) * State :=
  match urls with
  | [] => (Some [], st)
  | u :: urls' =>
      let req := mkRequest u "GET" in
      let (r, st1) := fetch net req st in
      let (rs, st2) := fetch_all net urls' st1 in
      match r, rs with
      | Some resp, Some l =>
          if Nat.leb 200 (status resp) && Nat.ltb (status resp) 300
             && negb (Nat.eqb (status resp) 206)
          then (Some ((req, resp) :: l), st2)
          else (None, st2)
      | _, _ => (None, st2)
      end
  end.

(** The [install] listener: the result says whether the promise handed to
    [waitUntil] fulfilled. *)
Definition on_install (net : Request -> option Response) (st : State)
  : bool * State :=
  let c :=
    match lookup_cache CACHE_NAME (caches st) with
    | Some c => c
    | None => []
    end in
  let st := mkState (store_cache CACHE_NAME c (caches st)) (network st) in
  let (rs, st) := fetch_all net urlsToCache st in
  match rs with
  | Some l =>
      let c' := fold_left (fun acc e => cache_put (fst e) (snd e) acc) l c in
      (true, mkState (store_cache CACHE_NAME c' (caches st)) (network st))
  | None => (false, st)
  end.

(** The [fetch] listener: the response handed to [respondWith]. *)
Definition on_fetch (net : Request -> option Response) (req : Request)
  (st : State) : option Response * State :=
  match caches_match (caches st) req with
  | Some response => (Some response, st)
  | None => fetch net req st
  end.

End Sw.

(** * The vocabulary of the properties *)

(** ** States of the page *)

(** The output area shows the error [msg] and nothing else. *)
Definition error_shown (msg : string) (w : World) : Prop :=
  textContent (dom w outputPlaceholder) = "Error: " ++ msg /\
  is_hidden (dom w outputPlaceholder) = false /\
  is_hidden (dom w generatedImage) = true /\
  is_hidden (dom w downloadBtn) = true.

(** A part without inline data: a text part, or an empty one. *)
Definition no_inline (p : Api.Part) : Prop := Api.inlineData p = None.

(** The event [ev], delivered in the state [w], takes the error-display
    path with the message [msg]. *)
Definition surfaces (w : World) (ev : Event) (msg : string) : Prop :=
  shown (step w ev) = (shown w ++ [msg])%list.

(** The DOM writes made between [w] and [w']. *)
Definition writes (w w' : World) (ops : list DomOp) : Prop :=
  journal w' = (journal w ++ ops)%list.

(** The five writes of [showError]. *)
Definition showError_writes (message : string) : list DomOp :=
  [ SetTextContent outputPlaceholder ("Error: " ++ message);
    SetStyleColor outputPlaceholder "var(--error-color)";
    ClassRemove outputPlaceholder "hidden";
    ClassAdd generatedImage "hidden";
    ClassAdd downloadBtn "hidden" ].

(** No upload is active: the image data or the mime type is falsy. *)
Definition no_upload (w : World) : Prop :=
  Js.truthy (base64ImageData w) = false \/ Js.truthy (mimeType w) = false.

(** An upload is active and the trigger is enabled. *)
Definition ready (w : World) : Prop :=
  Js.truthy (base64ImageData w) = true /\
  Js.truthy (mimeType w) = true /\
  disabled (dom w generateBtn) = false.

(** The request the handler builds in the state [w]. *)
Definition request_of (w : World) : Api.Params :=
  Api.mkParams "gemini-2.5-flash-image-preview"
    [ Api.mkPart (Some (Api.mkInlineData (base64ImageData w) (mimeType w)))
        None;
      Api.mkPart None
        (Some ("Transform this image into a " ++ value (dom w styleSelect)
               ++ " style.")) ]
    [Api.IMAGE; Api.TEXT].

(** The first part of [ps] that carries inline data, if any. *)
Definition first_inline (ps : list Api.Part) : option Api.InlineData :=
  match
    find
      (fun p => match Api.inlineData p with Some _ => true | None => false end)
      ps
  with
  | Some p => Api.inlineData p
  | None => None
  end.

(** The data URI the handler builds for an inline part. *)
Definition data_uri (d : Api.InlineData) : string :=
  "data:" ++ Js.to_string (Api.mimeType d) ++ ";base64,"
  ++ Js.to_string (Api.data d).

(** The output area shows the image of the inline part [d]. *)
Definition rendered (d : Api.InlineData) (w : World) : Prop :=
  src (dom w generatedImage) = data_uri d /\
  is_hidden (dom w generatedImage) = false /\
  is_hidden (dom w outputPlaceholder) = true.

(** The page has left the loading state. *)
Definition idle (w : World) : Prop :=
  is_hidden (dom w loader) = true /\
  disabled (dom w generateBtn) = false /\
  disabled (dom w cameraBtn) = false.

(** ** Pages, responses and caches for the instances *)

(** An element with every property at its default. *)
Definition blank : Element := mkElement [] false "" "" "" [] "".

(** A page at start-up: nothing uploaded yet, the preview, the loader, the
    result and the download button hidden, the generate button disabled,
    the style [watercolor] selected. *)
Definition fresh_dom : Dom :=
  fun e =>
    match e with
    | imagePreview | loader | generatedImage | downloadBtn =>
        mkElement ["hidden"] false "" "" "" [] ""
    | generateBtn => mkElement [] true "" "" "" [] ""
    | styleSelect => mkElement [] false "" "" "" [] "watercolor"
    | _ => blank
    end.

Definition fresh_page : World :=
  mkWorld fresh_dom Js.Null Js.Null [] [] [] [] [] [] [].

Definition png_file : File := mkFile "image/png".

(** The page after one PNG has been uploaded. *)
Definition uploaded_page : World :=
  upload png_file (Loaded "data:image/png;base64,iVBORw0KGgo=") fresh_page.

Definition response_of (ps : list Api.Part) : Api.Response :=
  Api.mkResponse
    (Some [Api.mkCandidate (Some (Api.mkContent (Some ps)))]).

Definition text_part (s : string) : Api.Part := Api.mkPart None (Some s).

Definition image_part (mime data : string) : Api.Part :=
  Api.mkPart (Some (Api.mkInlineData (Js.Str data) (Js.Str mime))) None.

(** The two ways a generation attempt fails, each with the message the
    handler passes to [showError]. *)
Inductive failure : Api.Outcome -> string -> Prop :=
| failure_threw (e : string) :
    failure (Api.Threw e)
      "Failed to generate image. Please check your connection and try again."
| failure_no_image (r : Api.Response) :
    first_inline (Api.parts_of r) = None ->
    failure (Api.Returned r)
      "The model did not return an image. Please try again.".

Definition jpeg_file : File := mkFile "image/jpeg".

(** Whether the character [c] occurs in [s]. *)
Fixpoint occurs (c : ascii) (s : string) : bool :=
  match s with
  | EmptyString => false
  | String a s' => Ascii.eqb a c || occurs c s'
  end.

(** [s] starts with a media type [m]: [s] is [data:], then [m], which is
    not empty and has no [';'], then [';']. *)
Definition media_type_at_head (s m : string) : Prop :=
  m <> "" /\ occurs ";" m = false /\
  exists rest, s = "data:" ++ m ++ ";" ++ rest.

(** The media type a result URL is read as: the one at the leftmost
    position of the URL where one starts, if there is such a position. *)
Inductive first_media_type : string -> option string -> Prop :=
| fmt_here (s m : string) :
    media_type_at_head s m -> first_media_type s (Some m)
| fmt_later (c : ascii) (s : string) (r : option string) :
    (forall m, ~ media_type_at_head (String c s) m) ->
    first_media_type s r -> first_media_type (String c s) r
| fmt_none : first_media_type "" None.

(** What stands between the first and the second ['/'] of [m] (or after
    the first, if there is no second), if [m] has a ['/']. *)
Inductive second_piece : string -> option string -> Prop :=
| piece_none (m : string) :
    occurs "/" m = false -> second_piece m None
| piece_last (a b : string) :
    occurs "/" a = false -> occurs "/" b = false ->
    second_piece (a ++ "/" ++ b) (Some b)
| piece_mid (a b c : string) :
    occurs "/" a = false -> occurs "/" b = false ->
    second_piece (a ++ "/" ++ b ++ "/" ++ c) (Some b).

(** The extension of a result URL: the second piece of its media type,
    and [png] when the URL has no media type, when the media type has no
    ['/'] or when its second piece is empty. *)
Inductive extension_is (url : string) : string -> Prop :=
| extension_subtype (m b : string) :
    first_media_type url (Some m) -> second_piece m (Some b) -> b <> "" ->
    extension_is url b
| extension_png_empty (m : string) :
    first_media_type url (Some m) -> second_piece m (Some "") ->
    extension_is url "png"
| extension_png_no_slash (m : string) :
    first_media_type url (Some m) -> second_piece m None ->
    extension_is url "png"
| extension_png_no_media_type :
    first_media_type url None -> extension_is url "png".

(** [undefined] for nothing, the string otherwise. *)
Definition value_of (r : option string) : Js.value :=
  match r with
  | Some x => Js.Str x
  | None => Js.Undefined
  end.



(** The page after a generation attempt answered with one JPEG part. *)
Definition jpeg_result_page : World :=
  generate (Api.Returned (response_of [image_part "image/jpeg" "QUJD"]))
    uploaded_page.

(** The page after a generation attempt answered with a part whose mime
    type has two slashes. *)
Definition two_slash_result_page : World :=
  generate (Api.Returned (response_of [image_part "a/b/c" "QUJD"]))
    uploaded_page.

Definition old_cache_request : Sw.Request := Sw.mkRequest "/index.js" "GET".
Definition old_cache_response : Sw.Response := Sw.mkResponse 200 "old script".

(** A storage in which a cache left by an earlier version of the worker
    precedes the named cache, which is empty. *)
Definition upgraded_storage : Sw.State :=
  Sw.mkState
    [ ("image-style-transfer-v0", [(old_cache_request, old_cache_response)]);
      (Sw.CACHE_NAME, []) ]
    [].

Definition offline : Sw.Request -> option Sw.Response := fun _ => None.

(** The result and the placeholder are not on screen together. *)
Definition exclusive (w : World) : Prop :=
  is_hidden (dom w generatedImage) = true \/
  is_hidden (dom w outputPlaceholder) = true.

(** * Start-up of the page script *)

(** The document the script starts in: [getElementById] finds the element
    or returns [null]. *)
Definition Document : Type := ElemId -> option Element.

(** [!el] for the result of a lookup. *)
Definition missing (doc : Document) (e : ElemId) : bool :=
  match doc e with
  | Some _ => false
  | None => true
  end.

(** The five listener functions of the script. *)
Inductive Handler : Type :=
| LabelClick | CameraClick | ImageUploadChange | GenerateClick
| DownloadClick.

(** What the top level of the script leaves behind: the [console.error]
    messages, the markup written over [document.body] if any, and the
    listeners attached (target, event type, function), in order. *)
Record Startup : Type := mkStartup {
  startup_console : list string;
  body_innerHTML : option string;
  listeners : list (ElemId * string * Handler)
}.

(** The critical check and the registration of the listeners. *)
Definition start_up (doc : Document) : Startup :=
  if missing doc imageUpload || missing doc uploadLabel
     || missing doc cameraBtn || missing doc imagePreview
     || missing doc previewPlaceholder || missing doc styleSelect
     || missing doc generateBtn || missing doc loader
     || missing doc generatedImage || missing doc outputPlaceholder
     || missing doc downloadBtn
  then
    mkStartup
      ["Fatal Error: One or more essential DOM elements are missing."]
      (Some
         "<h1>Error: Application could not start. Please contact support.</h1>")
      []
  else
    mkStartup [] None
      [ (uploadLabel, "click", LabelClick);
        (cameraBtn, "click", CameraClick);
        (imageUpload, "change", ImageUploadChange);
        (generateBtn, "click", GenerateClick);
        (downloadBtn, "click", DownloadClick) ].

(** [showError] with the guard at its head, over the lookups of [doc]. *)
Definition showError_guarded (doc : Document) (message : string)
  : World -> World :=
  if missing doc outputPlaceholder || missing doc generatedImage
     || missing doc downloadBtn
  then fun w => w
  else showError message.

(** [setLoading] with the guard at its head, over the lookups of [doc]. *)
Definition setLoading_guarded (doc : Document) (isLoading : bool)
  : World -> World :=
  if missing doc generateBtn || missing doc downloadBtn
     || missing doc loader || missing doc generatedImage
     || missing doc outputPlaceholder || missing doc uploadLabel
     || missing doc cameraBtn
  then fun w => w
  else setLoading isLoading.

(** * Further vocabulary *)

(** [getAttribute(name)] *)
Definition attr_get (name : string) (l : list (string * string))
  : option string :=
  match find (fun p => String.eqb name (fst p)) l with
  | Some p => Some (snd p)
  | None => None
  end.

(** A response from which the optional chain
    [candidates?.[0]?.content?.parts] yields nothing to scan: a link of the
    chain is absent, or the list of parts is empty. *)
Inductive hollow : Api.Response -> Prop :=
| hollow_no_candidates : hollow (Api.mkResponse None)
| hollow_empty_candidates : hollow (Api.mkResponse (Some []))
| hollow_no_content (cs : list Api.Candidate) :
    hollow (Api.mkResponse (Some (Api.mkCandidate None :: cs)))
| hollow_no_parts (cs : list Api.Candidate) :
    hollow
      (Api.mkResponse
         (Some (Api.mkCandidate (Some (Api.mkContent None)) :: cs)))
| hollow_empty_parts (cs : list Api.Candidate) :
    hollow
      (Api.mkResponse
         (Some (Api.mkCandidate (Some (Api.mkContent (Some []))) :: cs))).

(** An event other than the good end of a file read. *)
Definition no_read_success (ev : Event) : Prop :=
  match ev with
  | ReadSettled _ (Loaded _) => False
  | _ => True
  end.

(** The loading indicator is on screen only while a call is pending. *)
Definition loader_backed (w : World) : Prop :=
  is_hidden (dom w loader) = true \/ inFlight w <> [].

(** No call is pending, or one is and the trigger is disabled. *)
Definition single_flight (w : World) : Prop :=
  inFlight w = [] \/
  (length (inFlight w) = 1 /\ disabled (dom w generateBtn) = true).

(** The [GET] request [cache.addAll] makes for a URL. *)
Definition GET (u : string) : Sw.Request := Sw.mkRequest u "GET".

(** The network answers the [GET] for [u] with an ok status other than
    206. *)
Definition answers_ok (net : Sw.Request -> option Sw.Response) (u : string)
  : Prop :=
  exists resp,
    net (GET u) = Some resp /\
    (Nat.leb 200 (Sw.status resp) && Nat.ltb (Sw.status resp) 300
     && negb (Nat.eqb (Sw.status resp) 206)) = true.

(** The cache under [CACHE_NAME] before the install, empty if there is
    none. *)
Definition named_cache (cs : Sw.CacheStorage) : Sw.Cache :=
  match Sw.lookup_cache Sw.CACHE_NAME cs with
  | Some c => c
  | None => []
  end.

(** A network that serves every request with status 200. *)
Definition online : Sw.Request -> option Sw.Response :=
  fun req => Some (Sw.mkResponse 200 (Sw.url req)).

(** A document with all eleven elements. *)
Definition full_document : Document := fun e => Some (fresh_dom e).

(** A document whose loader element is missing. *)
Definition broken_document : Document :=
  fun e => match e with loader => None | _ => Some (fresh_dom e) end.

(** * Properties *)

(** ** Class lists, lists and strings *)

Lemma class_contains_add (c : string) (cl : list string) :
  class_contains c (class_add c cl) = true.
Proof.
  unfold class_contains, class_add.
  destruct (existsb (String.eqb c) cl) eqn:E; [exact E|].
  rewrite existsb_app. cbn. rewrite String.eqb_refl.
  apply orb_true_iff. right. reflexivity.
Qed.

Lemma class_contains_remove (c : string) (cl : list string) :
  class_contains c (class_remove c cl) = false.
Proof.
  unfold class_contains, class_remove.
  induction cl as [|x cl IH]; [reflexivity|].
  cbn. destruct (String.eqb c x) eqn:E; cbn; [exact IH|].
  rewrite E. exact IH.
Qed.

Lemma nth_error_snoc {A} (l : list A) (x : A) :
  nth_error (l ++ [x]) (length l) = Some x.
Proof. induction l as [|y l IH]; [reflexivity | exact IH]. Qed.

Lemma remove_nth_snoc {A} (l : list A) (x : A) :
  remove_nth (length l) (l ++ [x]) = l.
Proof.
  induction l as [|y l IH]; [reflexivity|].
  cbn. f_equal. exact IH.
Qed.

Lemma snoc_not_self {A} (l : list A) (x : A) : l <> (l ++ [x])%list.
Proof.
  intro H. apply (f_equal (@length A)) in H.
  rewrite length_app in H. cbn in H. lia.
Qed.

Lemma snoc_inj {A} (l : list A) (x y : A) :
  (l ++ [x] = l ++ [y])%list -> x = y.
Proof.
  intro H. apply app_inv_head in H. congruence.
Qed.

#[global] Arguments class_add : simpl never.
#[global] Arguments class_remove : simpl never.
#[global] Arguments class_contains : simpl never.
#[global] Arguments attr_set : simpl never.
#[global] Arguments attr_remove : simpl never.
#[global] Arguments String.append : simpl never.

(** Unfolds the statements of a handler down to the element fields and
    settles what the class list of an element contains. *)
Ltac dom_simpl :=
  cbn [seq exec note_error console_error set_upload start_read set_reading
       generateContent set_inFlight save_link
       dom base64ImageData mimeType journal console shown sent saved reading
       inFlight apply_op op_target op_on ElemId_eqb
       classList disabled src textContent styleColor attributes value];
  unfold is_hidden;
  cbn [classList];
  rewrite ?class_contains_add, ?class_contains_remove.

(** ** The error display *)

Lemma showError_shown (msg : string) (w : World) :
  shown (showError msg w) = (shown w ++ [msg])%list.
Proof. reflexivity. Qed.

Lemma showError_error_shown (msg : string) (w : World) :
  error_shown msg (showError msg w).
Proof.
  unfold error_shown, showError. dom_simpl. repeat split.
Qed.

Lemma setLoading_shown (b : bool) (w : World) :
  shown (setLoading b w) = shown w.
Proof. destruct b; reflexivity. Qed.

(** Leaving the loading state keeps a displayed error on screen. *)
Lemma setLoading_false_error_shown (msg : string) (w : World) :
  error_shown msg w -> error_shown msg (setLoading false w).
Proof.
  unfold error_shown, setLoading. dom_simpl.
  intros (Ht & Hp & Hi & Hd). repeat split; assumption.
Qed.

(** ** The scan of the response parts *)

Lemma scan_parts_none (ps : list Api.Part) (w : World) :
  Forall no_inline ps -> scan_parts ps w = (false, w).
Proof.
  induction 1 as [|p ps Hp _ IH]; [reflexivity|].
  cbn. rewrite Hp. exact IH.
Qed.

Lemma scan_parts_first (pre post : list Api.Part) (p : Api.Part)
  (d : Api.InlineData) (w : World) :
  Forall no_inline pre -> Api.inlineData p = Some d ->
  scan_parts (pre ++ p :: post) w = (true, show_result d w).
Proof.
  intros Hpre Hp. induction Hpre as [|q pre Hq _ IH].
  - cbn. rewrite Hp. reflexivity.
  - cbn. rewrite Hq. exact IH.
Qed.

(** The scan either finds nothing and leaves the page as it is, or shows
    the inline data of one of the parts. *)
Lemma scan_parts_cases (ps : list Api.Part) (w : World) :
  scan_parts ps w = (false, w) \/
  exists d, scan_parts ps w = (true, show_result d w).
Proof.
  induction ps as [|p ps IH]; [left; reflexivity|].
  cbn. destruct (Api.inlineData p) as [d|]; [right; exists d; reflexivity|].
  exact IH.
Qed.

(** ** One turn of the event loop and the error display *)

Lemma handleImageUpload_settled_rejected (e : string) (w : World) :
  shown (handleImageUpload_settled (Rejected e) w)
  = (shown w ++ ["Could not process the uploaded file."])%list /\
  error_shown "Could not process the uploaded file."
    (handleImageUpload_settled (Rejected e) w).
Proof.
  split; [reflexivity|].
  unfold error_shown, handleImageUpload_settled, showError. dom_simpl.
  repeat split.
Qed.

Lemma handleGenerateClick_settled_threw (e : string) (w : World) :
  error_shown
    "Failed to generate image. Please check your connection and try again."
    (handleGenerateClick_settled (Api.Threw e) w).
Proof.
  unfold handleGenerateClick_settled, seq.
  apply setLoading_false_error_shown, showError_error_shown.
Qed.

Lemma handleGenerateClick_settled_no_image (r : Api.Response) (w : World) :
  scan_parts (Api.parts_of r) w = (false, w) ->
  handleGenerateClick_settled (Api.Returned r) w
  = setLoading false
      (showError "The model did not return an image. Please try again." w).
Proof.
  intro H. unfold handleGenerateClick_settled, seq. rewrite H. reflexivity.
Qed.

Lemma handleGenerateClick_settled_image (r : Api.Response)
  (d : Api.InlineData) (w : World) :
  scan_parts (Api.parts_of r) w = (true, show_result d w) ->
  handleGenerateClick_settled (Api.Returned r) w
  = setLoading false (show_result d w).
Proof.
  intro H. unfold handleGenerateClick_settled, seq. rewrite H. reflexivity.
Qed.

(** C9: whenever a turn of the event loop hands a message to [showError]
    (a file read error, a missing input, a generation failure or a download
    precondition failure), the turn ends with the placeholder on screen
    carrying the error text and with the generated image and the download
    button hidden: an error and a rendered result are never on screen
    together. *)
Theorem error_display_excludes_result (w : World) (ev : Event) (msg : string) :
  surfaces w ev msg -> error_shown msg (step w ev).
Proof.
  unfold surfaces. destruct ev as [file|i r| |i o|now]; cbn [step].
  - destruct file; cbn; intro H; destruct (snoc_not_self _ _ H).
  - destruct (nth_error (reading w) i) as [file|];
      [|intro H; destruct (snoc_not_self _ _ H)].
    destruct (fileToGenerativePart file r) as [[part|e]|];
      [| |intro H; destruct (snoc_not_self _ _ H)].
    + cbn. intro H; destruct (snoc_not_self _ _ H).
    + destruct (handleImageUpload_settled_rejected e
                  (set_reading (remove_nth i (reading w)) w)) as [Hs He].
      rewrite Hs. cbn [set_reading shown]. intro H.
      apply snoc_inj in H. subst msg. exact He.
  - destruct (disabled (dom w generateBtn));
      [intro H; destruct (snoc_not_self _ _ H)|].
    unfold handleGenerateClick.
    destruct (negb (Js.truthy (base64ImageData w))
              || negb (Js.truthy (mimeType w))).
    + rewrite showError_shown. intro H. apply snoc_inj in H. subst msg.
      apply showError_error_shown.
    + cbn. intro H; destruct (snoc_not_self _ _ H).
  - destruct (nth_error (inFlight w) i) as [p|];
      [|intro H; destruct (snoc_not_self _ _ H)].
    set (w1 := set_inFlight (remove_nth i (inFlight w)) w).
    assert (Hw1 : shown w1 = shown w) by reflexivity.
    destruct o as [e|r].
    + intro H. unfold handleGenerateClick_settled, seq in H.
      rewrite setLoading_shown, showError_shown in H. cbn in H.
      apply snoc_inj in H. subst msg.
      apply handleGenerateClick_settled_threw.
    + destruct (scan_parts_cases (Api.parts_of r) w1) as [Hn|[d Hd]].
      * rewrite (handleGenerateClick_settled_no_image r w1 Hn).
        rewrite setLoading_shown, showError_shown, Hw1. intro H.
        apply snoc_inj in H. subst msg.
        apply setLoading_false_error_shown, showError_error_shown.
      * rewrite (handleGenerateClick_settled_image r d w1 Hd).
        rewrite setLoading_shown. cbn.
        intro H; destruct (snoc_not_self _ _ H).
  - unfold handleDownloadClick.
    destruct ((src (dom w generatedImage) =? "")
              || negb (Js.startsWith "data:" (src (dom w generatedImage)))).
    + unfold seq. rewrite showError_shown. cbn [console_error shown].
      intro H. apply snoc_inj in H. subst msg.
      apply showError_error_shown.
    + cbn. intro H; destruct (snoc_not_self _ _ H).
Qed.

(** ** The generation controller *)

Lemma showError_journal (message : string) (w : World) :
  writes w (showError message w) (showError_writes message).
Proof.
  unfold writes, showError, showError_writes. cbn.
  repeat rewrite <- app_assoc. reflexivity.
Qed.

Lemma handleGenerateClick_no_upload (w : World) :
  no_upload w ->
  handleGenerateClick w = showError "Please upload an image first." w.
Proof.
  unfold handleGenerateClick. intros [H|H]; rewrite H; cbn [negb orb].
  - reflexivity.
  - rewrite orb_true_r. reflexivity.
Qed.

Lemma handleGenerateClick_loading (w : World) :
  Js.truthy (base64ImageData w) = true -> Js.truthy (mimeType w) = true ->
  handleGenerateClick w = generateContent (request_of w) (setLoading true w).
Proof.
  intros Hd Hm. unfold handleGenerateClick. rewrite Hd, Hm. reflexivity.
Qed.

(** C3: a generation attempt made while no upload is active (image data or
    mime type absent) shows the 'Please upload an image first.' error and
    ends there: the only DOM writes of the turn are those of the error
    display, none of which touches the loading indicator or the trigger,
    no remote call is issued and none is left pending. *)
Theorem generate_without_upload (w : World) :
  no_upload w ->
  let w' := handleGenerateClick w in
  error_shown "Please upload an image first." w' /\
  shown w' = (shown w ++ ["Please upload an image first."])%list /\
  writes w w' (showError_writes "Please upload an image first.") /\
  Forall (fun op => op_target op <> loader /\ op_target op <> generateBtn)
    (showError_writes "Please upload an image first.") /\
  dom w' loader = dom w loader /\
  dom w' generateBtn = dom w generateBtn /\
  sent w' = sent w /\
  inFlight w' = inFlight w.
Proof.
  intros H w'. subst w'. rewrite (handleGenerateClick_no_upload w H).
  split; [apply showError_error_shown|].
  split; [apply showError_shown|].
  split; [apply showError_journal|].
  split; [repeat constructor; discriminate|].
  repeat split.
Qed.

(** A click on the enabled trigger with an upload active, followed by the
    settling of the call it issued. *)
Lemma generate_ready (o : Api.Outcome) (w : World) :
  ready w ->
  generate o w
  = handleGenerateClick_settled o
      (set_inFlight (inFlight w)
         (generateContent (request_of w) (setLoading true w))).
Proof.
  intros (Hd & Hm & He). unfold generate, run. cbn [fold_left].
  cbn [step]. rewrite He, (handleGenerateClick_loading w Hd Hm).
  assert (Hi : inFlight (generateContent (request_of w) (setLoading true w))
               = (inFlight w ++ [request_of w])%list)
    by (destruct w; reflexivity).
  rewrite Hi, nth_error_snoc, remove_nth_snoc. reflexivity.
Qed.

Lemma first_inline_some (ps : list Api.Part) (d : Api.InlineData) :
  first_inline ps = Some d <->
  exists pre p post,
    ps = (pre ++ p :: post)%list /\ Forall no_inline pre /\
    Api.inlineData p = Some d.
Proof.
  unfold first_inline. induction ps as [|q ps IH]; cbn.
  - split; [discriminate|].
    intros (pre & p & post & H & _). destruct pre; discriminate.
  - destruct (Api.inlineData q) as [d'|] eqn:Eq.
    + rewrite Eq. split.
      * intro H. exists [], q, ps. rewrite <- H. repeat split; auto.
      * intros (pre & p & post & H & Hpre & Hp).
        destruct pre as [|q' pre]; cbn in H; injection H as -> ->.
        -- congruence.
        -- inversion Hpre as [|? ? Hq _]. unfold no_inline in Hq. congruence.
    + rewrite IH. split.
      * intros (pre & p & post & -> & Hpre & Hp).
        exists (q :: pre), p, post. repeat split; auto.
      * intros (pre & p & post & H & Hpre & Hp).
        destruct pre as [|q' pre]; cbn in H; injection H as -> ->.
        -- congruence.
        -- inversion Hpre. exists pre, p, post. repeat split; auto.
Qed.

Lemma first_inline_none (ps : list Api.Part) :
  first_inline ps = None <-> Forall no_inline ps.
Proof.
  unfold first_inline. induction ps as [|q ps IH]; cbn.
  - split; auto.
  - destruct (Api.inlineData q) as [d'|] eqn:Eq.
    + rewrite Eq. split; [discriminate|].
      intro H. inversion H as [|? ? Hq _]. unfold no_inline in Hq. congruence.
    + rewrite IH. split.
      * intro H. constructor; assumption.
      * intro H. inversion H. assumption.
Qed.

Lemma scan_parts_first_inline (ps : list Api.Part) (w : World) :
  scan_parts ps w
  = match first_inline ps with
    | Some d => (true, show_result d w)
    | None => (false, w)
    end.
Proof.
  destruct (first_inline ps) as [d|] eqn:E.
  - apply first_inline_some in E. destruct E as (pre & p & post & -> & H1 & H2).
    apply scan_parts_first; assumption.
  - apply first_inline_none in E. apply scan_parts_none. exact E.
Qed.

Lemma generate_found (r : Api.Response) (d : Api.InlineData) (w : World) :
  ready w -> first_inline (Api.parts_of r) = Some d ->
  generate (Api.Returned r) w
  = setLoading false
      (show_result d
         (set_inFlight (inFlight w)
            (generateContent (request_of w) (setLoading true w)))).
Proof.
  intros Hr Hf. rewrite (generate_ready _ w Hr).
  apply handleGenerateClick_settled_image.
  rewrite scan_parts_first_inline, Hf. reflexivity.
Qed.

Lemma generate_not_found (r : Api.Response) (w : World) :
  ready w -> first_inline (Api.parts_of r) = None ->
  generate (Api.Returned r) w
  = setLoading false
      (showError "The model did not return an image. Please try again."
         (set_inFlight (inFlight w)
            (generateContent (request_of w) (setLoading true w)))).
Proof.
  intros Hr Hf. rewrite (generate_ready _ w Hr).
  apply handleGenerateClick_settled_no_image.
  rewrite scan_parts_first_inline, Hf. reflexivity.
Qed.

Lemma generate_threw (e : string) (w : World) :
  ready w ->
  generate (Api.Threw e) w
  = setLoading false
      (showError
         "Failed to generate image. Please check your connection and try again."
         (console_error ("API Error: " ++ e)
            (set_inFlight (inFlight w)
               (generateContent (request_of w) (setLoading true w))))).
Proof.
  intro Hr. rewrite (generate_ready _ w Hr). reflexivity.
Qed.

Lemma uploaded_page_ready : ready uploaded_page.
Proof. repeat split. Qed.

(** C4: the handler scans the parts of the response in order and shows
    the first one that carries inline data, whatever text parts come before
    or after it; a response without any such part ends in the 'did not
    return an image' error display, the result element hidden. *)
Theorem first_inline_part_rendered (w : World) (r : Api.Response) :
  ready w ->
  let w' := generate (Api.Returned r) w in
  match first_inline (Api.parts_of r) with
  | Some d => rendered d w' /\ shown w' = shown w
  | None =>
      error_shown "The model did not return an image. Please try again." w' /\
      src (dom w' generatedImage) = src (dom w generatedImage)
  end /\ idle w' /\ inFlight w' = inFlight w.
Proof.
  intros Hr w'. subst w'.
  destruct (first_inline (Api.parts_of r)) as [d|] eqn:Hf.
  - rewrite (generate_found r d w Hr Hf).
    unfold rendered, idle, setLoading, show_result, data_uri. dom_simpl.
    repeat split.
  - rewrite (generate_not_found r w Hr Hf).
    split; [split|].
    + apply setLoading_false_error_shown, showError_error_shown.
    + unfold setLoading, showError. dom_simpl. reflexivity.
    + unfold idle, setLoading, showError. dom_simpl. repeat split.
Qed.

Lemma first_inline_part_rendered_witness :
  ready uploaded_page /\
  rendered (Api.mkInlineData (Js.Str "QUJD") (Js.Str "image/jpeg"))
    (generate
       (Api.Returned
          (response_of [text_part "Here it is."; image_part "image/jpeg" "QUJD";
                        image_part "image/png" "REVG"]))
       uploaded_page).
Proof.
  split; [exact uploaded_page_ready|].
  exact (proj1 (proj1 (first_inline_part_rendered uploaded_page
     (response_of [text_part "Here it is."; image_part "image/jpeg" "QUJD";
                   image_part "image/png" "REVG"])
     uploaded_page_ready))).
Defined.

(** C1, as the code has it: when the response carries an image-bearing
    part, the first such part is rendered, but the download button is
    hidden once the loading state is cleared: the loop un-hides it (it is
    visible right after the loop body) and [setLoading(false)], run in the
    [finally] block, hides it again. *)
Theorem download_hidden_after_success (w : World) (r : Api.Response)
  (d : Api.InlineData) :
  ready w -> first_inline (Api.parts_of r) = Some d ->
  let w' := generate (Api.Returned r) w in
  rendered d w' /\ idle w' /\
  is_hidden (dom w' downloadBtn) = true /\
  (forall w0, is_hidden (dom (show_result d w0) downloadBtn) = false) /\
  (forall w0, is_hidden (dom (setLoading false w0) downloadBtn) = true).
Proof.
  intros Hr Hf w'. subst w'. rewrite (generate_found r d w Hr Hf).
  split; [|split; [|split; [|split]]].
  - unfold rendered, setLoading, show_result, data_uri. dom_simpl.
    repeat split.
  - unfold idle, setLoading, show_result. dom_simpl. repeat split.
  - unfold setLoading, show_result. dom_simpl. reflexivity.
  - intro w0. unfold show_result. dom_simpl. reflexivity.
  - intro w0. unfold setLoading. dom_simpl. reflexivity.
Qed.

Lemma download_hidden_after_success_witness :
  ready uploaded_page /\
  first_inline (Api.parts_of (response_of [image_part "image/png" "QUJD"]))
  = Some (Api.mkInlineData (Js.Str "QUJD") (Js.Str "image/png")) /\
  is_hidden
    (dom (generate (Api.Returned (response_of [image_part "image/png" "QUJD"]))
            uploaded_page) downloadBtn) = true.
Proof.
  split; [exact uploaded_page_ready|].
  split; [reflexivity|].
  exact (proj1 (proj2 (proj2
    (download_hidden_after_success uploaded_page
       (response_of [image_part "image/png" "QUJD"])
       (Api.mkInlineData (Js.Str "QUJD") (Js.Str "image/png"))
       uploaded_page_ready eq_refl)))).
Defined.

(** C2, as stated, fails: a call that throws and a response without an
    image leave different texts in the output area. *)
Lemma failure_messages_differ :
  textContent
    (dom (generate (Api.Threw "NetworkError") uploaded_page) outputPlaceholder)
  <> textContent
       (dom (generate (Api.Returned (response_of [text_part "Sorry."]))
               uploaded_page) outputPlaceholder).
Proof. intro H. vm_compute in H. discriminate H. Qed.

(** C2, amended: a failed generation attempt, whether the call throws or
    its response has no image-bearing part, ends in the same error display
    (placeholder on screen with the text, result and download button
    hidden, loading state left), with a message of its own for each of the
    two causes. *)
Theorem failures_share_error_display (w : World) (o : Api.Outcome)
  (msg : string) :
  ready w -> failure o msg ->
  let w' := generate o w in
  error_shown msg w' /\
  shown w' = (shown w ++ [msg])%list /\
  idle w' /\
  inFlight w' = inFlight w.
Proof.
  intros Hr Hf w'. subst w'. destruct Hf as [e|r Hn].
  - rewrite (generate_threw e w Hr).
    split; [apply setLoading_false_error_shown, showError_error_shown|].
    unfold idle, setLoading, showError. dom_simpl. repeat split.
  - rewrite (generate_not_found r w Hr Hn).
    split; [apply setLoading_false_error_shown, showError_error_shown|].
    unfold idle, setLoading, showError. dom_simpl. repeat split.
Qed.

Lemma failures_share_error_display_witness :
  ready uploaded_page /\
  failure (Api.Returned (response_of [text_part "Sorry."]))
    "The model did not return an image. Please try again." /\
  error_shown "The model did not return an image. Please try again."
    (generate (Api.Returned (response_of [text_part "Sorry."])) uploaded_page).
Proof.
  split; [exact uploaded_page_ready|].
  split; [apply failure_no_image; reflexivity|].
  exact (proj1
    (failures_share_error_display uploaded_page
       (Api.Returned (response_of [text_part "Sorry."]))
       "The model did not return an image. Please try again."
       uploaded_page_ready
       (failure_no_image (response_of [text_part "Sorry."]) eq_refl))).
Defined.

Lemma generate_without_upload_witness :
  no_upload fresh_page /\
  error_shown "Please upload an image first." (handleGenerateClick fresh_page).
Proof.
  split; [left; reflexivity|].
  exact (proj1 (generate_without_upload fresh_page (or_introl eq_refl))).
Defined.

Lemma error_display_excludes_result_witness :
  surfaces fresh_page (DownloadClicked 1700000000000)
    "No image available to download." /\
  error_shown "No image available to download."
    (step fresh_page (DownloadClicked 1700000000000)).
Proof.
  split; [reflexivity|].
  exact (error_display_excludes_result fresh_page
           (DownloadClicked 1700000000000)
           "No image available to download." eq_refl).
Defined.

(** ** The upload handler *)

(** The promise of [fileToGenerativePart] always settles: it resolves with
    the file's type and the text after the first comma of the data URL, or
    rejects. *)
Lemma fileToGenerativePart_settles (file : File) (r : ReadOutcome) :
  fileToGenerativePart file r
  = Some
      match r with
      | Loaded dataUrl =>
          Resolved
            (Api.mkInlineData (Js.index (Js.split "," dataUrl) 1)
               (Js.Str (file_type file)))
      | Failed e => Rejected e
      | Aborted => Rejected "Failed to read file as string."
      end.
Proof. destruct r; reflexivity. Qed.

Lemma upload_settled (file : File) (r : ReadOutcome) (w : World)
  (p : Settled Api.InlineData) :
  fileToGenerativePart file r = Some p ->
  upload file r w
  = handleImageUpload_settled p (set_reading (reading w) (start_read file w)).
Proof.
  intro Hp. unfold upload, run. cbn [fold_left step handleImageUpload].
  assert (Hr : reading (start_read file w) = (reading w ++ [file])%list)
    by reflexivity.
  rewrite Hr, nth_error_snoc, remove_nth_snoc, Hp. reflexivity.
Qed.

(** C6: an upload whose read fails surfaces the one generic error and
    leaves the stored image data and mime type, and with them the state of
    the generate button, as they were; an upload whose read succeeds stores
    the new pair, shows the preview and enables the generate button. *)
Theorem upload_outcome (w : World) (file : File) (r : ReadOutcome) :
  let w' := upload file r w in
  match r with
  | Loaded dataUrl =>
      base64ImageData w' = Js.index (Js.split "," dataUrl) 1 /\
      mimeType w' = Js.Str (file_type file) /\
      disabled (dom w' generateBtn) = false /\
      is_hidden (dom w' imagePreview) = false /\
      is_hidden (dom w' previewPlaceholder) = true /\
      shown w' = shown w
  | Failed _ | Aborted =>
      error_shown "Could not process the uploaded file." w' /\
      shown w' = (shown w ++ ["Could not process the uploaded file."])%list /\
      base64ImageData w' = base64ImageData w /\
      mimeType w' = mimeType w /\
      dom w' generateBtn = dom w generateBtn
  end /\
  value (dom w' imageUpload) = "" /\
  reading w' = reading w.
Proof.
  intro w'. subst w'.
  rewrite (upload_settled file r w _ (fileToGenerativePart_settles file r)).
  destruct r as [dataUrl|e|].
  - unfold handleImageUpload_settled. dom_simpl. repeat split.
  - split; [|split; reflexivity].
    split; [apply handleImageUpload_settled_rejected|]. repeat split.
  - split; [|split; reflexivity].
    split; [apply handleImageUpload_settled_rejected|]. repeat split.
Qed.

(** C10: a file whose reported type is the empty string uploads
    successfully (data stored, preview shown, generate button enabled), and
    the click on the generate button that follows shows 'Please upload an
    image first.' without issuing a call, the empty mime type being
    falsy. *)
Theorem empty_mime_type_upload (w : World) (dataUrl : string) :
  let w1 := upload (mkFile "") (Loaded dataUrl) w in
  let w2 := step w1 GenerateClicked in
  base64ImageData w1 = Js.index (Js.split "," dataUrl) 1 /\
  mimeType w1 = Js.Str "" /\
  disabled (dom w1 generateBtn) = false /\
  is_hidden (dom w1 imagePreview) = false /\
  shown w1 = shown w /\
  w2 = showError "Please upload an image first." w1 /\
  error_shown "Please upload an image first." w2 /\
  sent w2 = sent w1 /\
  inFlight w2 = inFlight w1 /\
  is_hidden (dom w2 loader) = is_hidden (dom w1 loader).
Proof.
  intros w1 w2.
  assert (H1 : base64ImageData w1 = Js.index (Js.split "," dataUrl) 1 /\
               mimeType w1 = Js.Str "" /\
               disabled (dom w1 generateBtn) = false /\
               is_hidden (dom w1 imagePreview) = false /\
               shown w1 = shown w).
  { subst w1.
    rewrite (upload_settled _ _ w _ (fileToGenerativePart_settles _ _)).
    unfold handleImageUpload_settled. dom_simpl. repeat split. }
  destruct H1 as (Hd & Hm & He & Hp & Hs).
  assert (H2 : w2 = showError "Please upload an image first." w1).
  { subst w2. cbn [step]. rewrite He.
    apply handleGenerateClick_no_upload. right. rewrite Hm. reflexivity. }
  repeat (split; [assumption|]).
  rewrite H2. split; [apply showError_error_shown|]. repeat split.
Qed.

(** ** The trigger while a request is in flight *)

(** Entering the loading state disables the trigger and puts one more
    request in flight. *)
Lemma loading_disables_trigger (w : World) :
  ready w ->
  disabled (dom (step w GenerateClicked) generateBtn) = true /\
  inFlight (step w GenerateClicked) = (inFlight w ++ [request_of w])%list.
Proof.
  intros (Hd & Hm & He). cbn [step]. rewrite He.
  rewrite (handleGenerateClick_loading w Hd Hm). split; reflexivity.
Qed.

(** A click on the disabled trigger changes nothing. *)
Lemma click_on_disabled_trigger (w : World) :
  disabled (dom w generateBtn) = true -> step w GenerateClicked = w.
Proof. intro H. cbn [step]. rewrite H. reflexivity. Qed.

(** A read that ends well enables the trigger, whatever is in flight. *)
Lemma read_enables_trigger (w : World) (i : nat) (file : File)
  (dataUrl : string) :
  nth_error (reading w) i = Some file ->
  disabled (dom (step w (ReadSettled i (Loaded dataUrl))) generateBtn)
  = false /\
  inFlight (step w (ReadSettled i (Loaded dataUrl))) = inFlight w.
Proof.
  intro H. cbn [step]. rewrite H, fileToGenerativePart_settles.
  split; reflexivity.
Qed.

(** C5, as the code has it: the trigger is disabled on entering the
    loading state and a click on it is then a no-op, but the read of a file
    chosen before the click ends during the loading state and enables the
    trigger again, and the next click puts a second request in flight
    while the first is still pending. *)
Theorem second_request_while_loading :
  let w1 :=
    run uploaded_page [FileChosen (Some jpeg_file); GenerateClicked] in
  let w2 :=
    step w1 (ReadSettled 0 (Loaded "data:image/jpeg;base64,/9j/4AAQ")) in
  let w3 := step w2 GenerateClicked in
  ready uploaded_page /\
  disabled (dom w1 generateBtn) = true /\
  length (inFlight w1) = 1 /\
  step w1 GenerateClicked = w1 /\
  disabled (dom w2 generateBtn) = false /\
  is_hidden (dom w2 loader) = false /\
  length (inFlight w2) = 1 /\
  length (inFlight w3) = 2 /\
  length (sent w3) = 2.
Proof.
  cbv zeta. split; [exact uploaded_page_ready|].
  do 2 (split; [vm_compute; reflexivity|]).
  split; [apply click_on_disabled_trigger; vm_compute; reflexivity|].
  do 4 (split; [vm_compute; reflexivity|]).
  vm_compute. reflexivity.
Qed.

(** ** The download handler *)

Lemma occurs_append (c : ascii) (a b : string) :
  occurs c (a ++ b) = occurs c a || occurs c b.
Proof.
  induction a as [|x a IH]; [reflexivity|].
  change (String x a ++ b) with (String x (a ++ b)). cbn [occurs].
  rewrite IH. apply orb_assoc.
Qed.

Lemma append_assoc (a b c : string) : (a ++ b) ++ c = a ++ (b ++ c).
Proof.
  induction a as [|x a IH]; [reflexivity|].
  change ((String x a ++ b) ++ c) with (String x ((a ++ b) ++ c)).
  rewrite IH. reflexivity.
Qed.

Lemma append_empty_r (a : string) : a ++ "" = a.
Proof.
  induction a as [|x a IH]; [reflexivity|].
  change (String x a ++ "") with (String x (a ++ "")). rewrite IH.
  reflexivity.
Qed.

(** *** [split] *)

Lemma split_go_free (sep : ascii) (s cur : string) :
  occurs sep s = false -> Js.split_go sep s cur = [cur ++ s].
Proof.
  revert cur. induction s as [|x s IH]; intros cur H.
  - cbn. rewrite append_empty_r. reflexivity.
  - cbn in H. apply orb_false_iff in H. destruct H as [Hx Hs].
    cbn [Js.split_go]. rewrite Hx, (IH _ Hs), append_assoc. reflexivity.
Qed.

Lemma split_go_at (sep : ascii) (a b cur : string) :
  occurs sep a = false ->
  Js.split_go sep (a ++ String sep b) cur
  = (cur ++ a) :: Js.split_go sep b "".
Proof.
  revert cur. induction a as [|x a IH]; intros cur H.
  - change ("" ++ String sep b) with (String sep b). cbn [Js.split_go].
    rewrite Ascii.eqb_refl, append_empty_r. reflexivity.
  - cbn in H. apply orb_false_iff in H. destruct H as [Hx Ha].
    change (String x a ++ String sep b) with (String x (a ++ String sep b)).
    cbn [Js.split_go]. rewrite Hx, (IH _ Ha), append_assoc. reflexivity.
Qed.

(** A string without the separator has no second piece. *)
Lemma split_index_1_free (sep : ascii) (s : string) :
  occurs sep s = false -> Js.index (Js.split sep s) 1 = Js.Undefined.
Proof.
  intro H. unfold Js.split. rewrite (split_go_free sep s "" H). reflexivity.
Qed.

(** The second piece of [a/b], [b] without a separator, is [b]. *)
Lemma split_index_1_at (sep : ascii) (a b : string) :
  occurs sep a = false -> occurs sep b = false ->
  Js.index (Js.split sep (a ++ String sep b)) 1 = Js.Str b.
Proof.
  intros Ha Hb. unfold Js.split.
  rewrite (split_go_at sep a b "" Ha), (split_go_free sep b "" Hb).
  reflexivity.
Qed.

(** *** The regular expression *)

Lemma strip_append (p s : string) : strip p (p ++ s) = Some s.
Proof.
  induction p as [|x p IH]; [destruct s; reflexivity|].
  change (String x p ++ s) with (String x (p ++ s)). cbn [strip].
  rewrite Ascii.eqb_refl. exact IH.
Qed.

Lemma strip_some (p s r : string) : strip p s = Some r -> s = p ++ r.
Proof.
  revert s. induction p as [|x p IH]; intros s H.
  - destruct s; cbn in H; injection H as <-; reflexivity.
  - destruct s as [|y s]; [discriminate|]. cbn in H.
    destruct (Ascii.eqb x y) eqn:E; [|discriminate].
    apply Ascii.eqb_eq in E. subst y. rewrite (IH _ H). reflexivity.
Qed.

Lemma span_free (s : string) :
  occurs ";" s = false -> span_not_semicolon s = (s, "").
Proof.
  induction s as [|x s IH]; intro H; [reflexivity|].
  cbn in H. apply orb_false_iff in H. destruct H as [Hx Hs].
  cbn [span_not_semicolon]. rewrite Hx, (IH Hs). reflexivity.
Qed.

Lemma span_at (m rest : string) :
  occurs ";" m = false ->
  span_not_semicolon (m ++ String ";" rest) = (m, String ";" rest).
Proof.
  induction m as [|x m IH]; intro H; [reflexivity|].
  cbn in H. apply orb_false_iff in H. destruct H as [Hx Hm].
  change (String x m ++ String ";" rest)
    with (String x (m ++ String ";" rest)).
  cbn [span_not_semicolon]. rewrite Hx, (IH Hm). reflexivity.
Qed.

(** Without a [';'] the expression matches nowhere. *)
Lemma match_here_no_semicolon (s : string) :
  occurs ";" s = false -> match_here s = None.
Proof.
  intro H. unfold match_here. destruct (strip "data:" s) as [r|] eqn:E;
    [|reflexivity].
  apply strip_some in E. subst s. rewrite occurs_append in H.
  apply orb_false_iff in H. destruct H as [_ Hr].
  rewrite (span_free r Hr). destruct r; reflexivity.
Qed.

Lemma match_data_mime_no_semicolon (s : string) :
  occurs ";" s = false -> match_data_mime s = Js.Undefined.
Proof.
  induction s as [|x s IH]; intro H; [reflexivity|].
  cbn [match_data_mime]. rewrite (match_here_no_semicolon _ H).
  cbn in H. apply orb_false_iff in H. apply IH, H.
Qed.

(** Without a [':'] the expression matches nowhere. *)
Lemma match_data_mime_no_colon (s : string) :
  occurs ":" s = false -> match_data_mime s = Js.Undefined.
Proof.
  induction s as [|x s IH]; intro H; [reflexivity|].
  cbn [match_data_mime].
  assert (Hh : match_here (String x s) = None).
  { unfold match_here. destruct (strip "data:" (String x s)) as [r|] eqn:E;
      [|reflexivity].
    apply strip_some in E. rewrite E in H. discriminate H. }
  rewrite Hh. cbn in H. apply orb_false_iff in H. apply IH, H.
Qed.


Lemma truthy_nonempty (s : string) : s <> "" -> Js.truthy (Js.Str s) = true.
Proof. destruct s; [contradiction|reflexivity]. Qed.

Lemma or_default_nonempty (s d : string) :
  s <> "" -> Js.or_default (Js.Str s) d = s.
Proof.
  intro H. unfold Js.or_default. rewrite (truthy_nonempty s H). reflexivity.
Qed.



(** A result URL that cannot be parsed is saved as [.png]. *)
Example unparseable_uri_png :
  extension_of "data:abc" = "png" /\
  extension_of "data:;base64,QUJD" = "png" /\
  extension_of "data:undefined;base64,QUJD" = "png".
Proof. repeat split. Qed.

(** ** The asset cache worker *)

(** A hit in any cache of the storage is served as it is. *)
Lemma on_fetch_hit (net : Sw.Request -> option Sw.Response)
  (req : Sw.Request) (st : Sw.State) (resp : Sw.Response) :
  Sw.caches_match (Sw.caches st) req = Some resp ->
  Sw.on_fetch net req st = (Some resp, st).
Proof. intro H. unfold Sw.on_fetch. rewrite H. reflexivity. Qed.

(** A miss in every cache goes to the network. *)
Lemma on_fetch_miss (net : Sw.Request -> option Sw.Response)
  (req : Sw.Request) (st : Sw.State) :
  Sw.caches_match (Sw.caches st) req = None ->
  Sw.on_fetch net req st
  = (net req, Sw.mkState (Sw.caches st) (Sw.network st ++ [req])).
Proof. intro H. unfold Sw.on_fetch. rewrite H. reflexivity. Qed.

(** In a storage that holds the named cache alone, [caches.match] is the
    match in that cache. *)
Lemma caches_match_single (c : Sw.Cache) (req : Sw.Request) :
  Sw.caches_match [(Sw.CACHE_NAME, c)] req = Sw.cache_match c req.
Proof. cbn. destruct (Sw.cache_match c req); reflexivity. Qed.

(** [caches.match] finds a response exactly when some cache of the
    storage has one, and the response is that of the first such cache. *)
Lemma caches_match_first (cs : Sw.CacheStorage) (req : Sw.Request)
  (resp : Sw.Response) :
  Sw.caches_match cs req = Some resp <->
  exists pre name c post,
    cs = (pre ++ (name, c) :: post)%list /\
    Forall (fun e => Sw.cache_match (snd e) req = None) pre /\
    Sw.cache_match c req = Some resp.
Proof.
  induction cs as [|[n c0] cs IH]; cbn.
  - split; [discriminate|].
    intros (pre & name & c & post & H & _). destruct pre; discriminate.
  - destruct (Sw.cache_match c0 req) as [r0|] eqn:E.
    + split.
      * intro H. injection H as ->. exists [], n, c0, cs. repeat split; auto.
      * intros (pre & name & c & post & H & Hpre & Hc).
        destruct pre as [|e pre]; cbn in H.
        -- injection H as Hn Hc0 Hcs. subst. congruence.
        -- injection H as He Hcs. subst e.
           inversion Hpre as [|? ? He _]. cbn in He. congruence.
    + rewrite IH. split.
      * intros (pre & name & c & post & -> & Hpre & Hc).
        exists ((n, c0) :: pre), name, c, post. repeat split; auto.
      * intros (pre & name & c & post & H & Hpre & Hc).
        destruct pre as [|e pre]; cbn in H.
        -- injection H as Hn Hc0 Hcs. subst. congruence.
        -- injection H as He Hcs. subst e cs.
           inversion Hpre. exists pre, name, c, post. repeat split; auto.
Qed.

(** C8, as stated, fails: the named cache has no match for the request,
    yet the request does not pass through to the network; it is answered
    from another cache of the storage. *)
Lemma other_cache_answers :
  Sw.lookup_cache Sw.CACHE_NAME (Sw.caches upgraded_storage) = Some [] /\
  Sw.cache_match [] old_cache_request = None /\
  Sw.on_fetch offline old_cache_request upgraded_storage
  = (Some old_cache_response, upgraded_storage) /\
  Sw.network (snd (Sw.on_fetch offline old_cache_request upgraded_storage))
  = [] /\
  Sw.on_fetch offline old_cache_request upgraded_storage
  <> Sw.fetch offline old_cache_request upgraded_storage.
Proof. repeat split. discriminate. Qed.

(** C8, amended: for every intercepted request the worker looks for a
    match in the caches of the origin's storage, in creation order (the
    named cache is the only one when the storage holds nothing else); a
    match is served without a network call, otherwise the request goes to
    the network as it is; in both cases the caches are left as they
    were. *)
Theorem cache_first_fetch (net : Sw.Request -> option Sw.Response)
  (req : Sw.Request) (st : Sw.State) :
  match Sw.caches_match (Sw.caches st) req with
  | Some resp => Sw.on_fetch net req st = (Some resp, st)
  | None =>
      Sw.on_fetch net req st
      = (net req, Sw.mkState (Sw.caches st) (Sw.network st ++ [req]))
  end /\
  Sw.caches (snd (Sw.on_fetch net req st)) = Sw.caches st /\
  (forall c, Sw.caches_match [(Sw.CACHE_NAME, c)] req = Sw.cache_match c req).
Proof.
  split; [|split].
  - destruct (Sw.caches_match (Sw.caches st) req) as [resp|] eqn:E.
    + apply on_fetch_hit, E.
    + apply on_fetch_miss, E.
  - unfold Sw.on_fetch.
    destruct (Sw.caches_match (Sw.caches st) req); reflexivity.
  - intro c. apply caches_match_single.
Qed.

Lemma fetch_all_caches (net : Sw.Request -> option Sw.Response)
  (urls : list string) (st : Sw.State) :
  Sw.caches (snd (Sw.fetch_all net urls st)) = Sw.caches st.
Proof.
  revert st. induction urls as [|u urls IH]; intro st; [reflexivity|].
  cbn [Sw.fetch_all Sw.fetch].
  specialize (IH (Sw.mkState (Sw.caches st)
                    (Sw.network st ++ [Sw.mkRequest u "GET"]))).
  destruct (Sw.fetch_all net urls _) as [rs st2]. cbn [snd] in IH.
  destruct (net _) as [resp|], rs as [l|]; try exact IH.
  destruct (_ && _); exact IH.
Qed.

(** Installed on an origin without caches, the worker leaves the named
    cache as the only one. *)
Lemma install_fresh_storage (net : Sw.Request -> option Sw.Response)
  (nw : list Sw.Request) :
  exists c,
    Sw.caches (snd (Sw.on_install net (Sw.mkState [] nw)))
    = [(Sw.CACHE_NAME, c)].
Proof.
  unfold Sw.on_install.
  cbn [Sw.lookup_cache Sw.caches find Sw.network Sw.store_cache].
  pose proof (fetch_all_caches net Sw.urlsToCache
                (Sw.mkState [(Sw.CACHE_NAME, [])] nw)) as H.
  destruct (Sw.fetch_all net Sw.urlsToCache _) as [[l|] st']; cbn [snd] in *.
  - cbn [Sw.caches] in H |- *. rewrite H. cbn [Sw.store_cache].
    rewrite String.eqb_refl. eexists. reflexivity.
  - rewrite H. eexists. reflexivity.
Qed.

(** ** The output area over a run of the page *)

Lemma error_shown_exclusive (msg : string) (w : World) :
  error_shown msg w -> exclusive w.
Proof. intros (_ & _ & H & _). left. exact H. Qed.

Lemma setLoading_false_exclusive (w : World) :
  exclusive w -> exclusive (setLoading false w).
Proof. unfold exclusive, setLoading. dom_simpl. tauto. Qed.

Lemma step_exclusive (w : World) (ev : Event) :
  exclusive w -> exclusive (step w ev).
Proof.
  intro Hw. destruct ev as [file|i r| |i o|now]; cbn [step].
  - destruct file; exact Hw.
  - destruct (nth_error (reading w) i) as [file|]; [|exact Hw].
    rewrite fileToGenerativePart_settles. destruct r as [u|e|].
    + unfold exclusive, handleImageUpload_settled in *. dom_simpl. exact Hw.
    + eapply error_shown_exclusive, handleImageUpload_settled_rejected.
    + eapply error_shown_exclusive, handleImageUpload_settled_rejected.
  - destruct (disabled (dom w generateBtn)); [exact Hw|].
    unfold handleGenerateClick.
    destruct (negb (Js.truthy (base64ImageData w))
              || negb (Js.truthy (mimeType w))).
    + eapply error_shown_exclusive, showError_error_shown.
    + unfold exclusive, setLoading. dom_simpl. left. reflexivity.
  - destruct (nth_error (inFlight w) i) as [p|]; [|exact Hw].
    set (w1 := set_inFlight (remove_nth i (inFlight w)) w).
    destruct o as [e|r].
    + eapply error_shown_exclusive, handleGenerateClick_settled_threw.
    + destruct (scan_parts_cases (Api.parts_of r) w1) as [Hn|[d Hd]].
      * rewrite (handleGenerateClick_settled_no_image r w1 Hn).
        eapply error_shown_exclusive, setLoading_false_error_shown,
          showError_error_shown.
      * rewrite (handleGenerateClick_settled_image r d w1 Hd).
        unfold exclusive, setLoading, show_result. dom_simpl.
        right. reflexivity.
  - unfold handleDownloadClick.
    destruct ((src (dom w generatedImage) =? "")
              || negb (Js.startsWith "data:" (src (dom w generatedImage)))).
    + eapply error_shown_exclusive. unfold seq. apply showError_error_shown.
    + exact Hw.
Qed.

(** X22: whatever the events and their order, the result and the
    placeholder are never on screen together once they are not at the
    start. *)
Theorem run_exclusive (evs : list Event) (w : World) :
  exclusive w -> exclusive (run w evs).
Proof.
  revert w. induction evs as [|ev evs IH]; intros w H; [exact H|].
  apply (IH (step w ev)), step_exclusive, H.
Qed.

(** * Further properties of the page script *)

(** ** Start-up *)

(** X1: the script attaches its listeners only when all eleven elements
    were found: with one missing it logs the fatal error, writes the
    notice over the body and attaches nothing; with none missing it
    attaches the five listeners and leaves the body alone, and the guards
    at the head of [showError] and [setLoading] then let every call
    through. *)
Theorem start_up_all_or_nothing (doc : Document) :
  match listeners (start_up doc) with
  | [] =>
      (exists e, doc e = None) /\
      body_innerHTML (start_up doc)
      = Some
          ("<h1>Error: Application could not start. "
           ++ "Please contact support.</h1>") /\
      startup_console (start_up doc)
      = ["Fatal Error: One or more essential DOM elements are missing."]
  | ls =>
      (forall e, doc e <> None) /\
      map snd ls
      = [LabelClick; CameraClick; ImageUploadChange; GenerateClick;
         DownloadClick] /\
      body_innerHTML (start_up doc) = None /\
      startup_console (start_up doc) = [] /\
      (forall message, showError_guarded doc message = showError message) /\
      (forall isLoading,
         setLoading_guarded doc isLoading = setLoading isLoading)
  end.
Proof.
  unfold start_up, showError_guarded, setLoading_guarded, missing.
  destruct (doc imageUpload) eqn:E1;
    [|cbn; split; [exists imageUpload; exact E1|split; reflexivity]].
  destruct (doc uploadLabel) eqn:E2;
    [|cbn; split; [exists uploadLabel; exact E2|split; reflexivity]].
  destruct (doc cameraBtn) eqn:E3;
    [|cbn; split; [exists cameraBtn; exact E3|split; reflexivity]].
  destruct (doc imagePreview) eqn:E4;
    [|cbn; split; [exists imagePreview; exact E4|split; reflexivity]].
  destruct (doc previewPlaceholder) eqn:E5;
    [|cbn; split; [exists previewPlaceholder; exact E5|split; reflexivity]].
  destruct (doc styleSelect) eqn:E6;
    [|cbn; split; [exists styleSelect; exact E6|split; reflexivity]].
  destruct (doc generateBtn) eqn:E7;
    [|cbn; split; [exists generateBtn; exact E7|split; reflexivity]].
  destruct (doc loader) eqn:E8;
    [|cbn; split; [exists loader; exact E8|split; reflexivity]].
  destruct (doc generatedImage) eqn:E9;
    [|cbn; split; [exists generatedImage; exact E9|split; reflexivity]].
  destruct (doc outputPlaceholder) eqn:E10;
    [|cbn; split; [exists outputPlaceholder; exact E10|split; reflexivity]].
  destruct (doc downloadBtn) eqn:E11;
    [|cbn; split; [exists downloadBtn; exact E11|split; reflexivity]].
  cbn. split; [intros []; congruence|]. repeat split.
Qed.

(** ** Uploads *)

Lemma upload_loaded (file : File) (dataUrl : string) (w : World) :
  upload file (Loaded dataUrl) w
  = handleImageUpload_settled
      (Resolved
         (Api.mkInlineData (Js.index (Js.split "," dataUrl) 1)
            (Js.Str (file_type file))))
      (set_reading (reading w) (start_read file w)).
Proof. apply upload_settled, fileToGenerativePart_settles. Qed.

(** X2: the upload handler takes the data URL apart and puts it together
    again: for a file of type [ty] read as [data:<ty>;base64,<payload>],
    the stored data is the payload, the stored mime type is [ty], and the
    preview shows the very data URL that was read. *)
Theorem upload_preview_round_trip (w : World) (ty payload : string) :
  occurs "," ty = false -> occurs "," payload = false ->
  let dataUrl := "data:" ++ ty ++ ";base64," ++ payload in
  let w' := upload (mkFile ty) (Loaded dataUrl) w in
  base64ImageData w' = Js.Str payload /\
  mimeType w' = Js.Str ty /\
  src (dom w' imagePreview) = dataUrl /\
  is_hidden (dom w' imagePreview) = false.
Proof.
  intros Ht Hp dataUrl w'. subst w'. rewrite upload_loaded.
  assert (Hs : Js.index (Js.split "," dataUrl) 1 = Js.Str payload).
  { subst dataUrl.
    replace ("data:" ++ ty ++ ";base64," ++ payload)
      with (("data:" ++ ty ++ ";base64") ++ String "," payload)
      by (rewrite !append_assoc; reflexivity).
    apply split_index_1_at; [|exact Hp].
    rewrite !occurs_append, Ht. reflexivity. }
  unfold handleImageUpload_settled. dom_simpl.
  cbn [Api.data Api.mimeType file_type]. rewrite Hs.
  repeat split.
Qed.

Lemma upload_preview_round_trip_witness :
  occurs "," "image/png" = false /\ occurs "," "iVBORw0KGgo=" = false /\
  src (dom (upload (mkFile "image/png")
              (Loaded "data:image/png;base64,iVBORw0KGgo=") fresh_page)
         imagePreview)
  = "data:image/png;base64,iVBORw0KGgo=".
Proof.
  split; [reflexivity|]. split; [reflexivity|].
  exact (proj1 (proj2 (proj2
    (upload_preview_round_trip fresh_page "image/png" "iVBORw0KGgo="
       eq_refl eq_refl)))).
Defined.

(** X3: a read whose data URL has no comma, or nothing after its comma,
    still counts as a successful upload (preview shown, generate button
    enabled), but the stored data is [undefined] or empty, so the click
    on generate that follows shows 'Please upload an image first.' and
    sends nothing. *)
Theorem upload_without_payload (w : World) (file : File) (dataUrl : string) :
  occurs "," dataUrl = false \/
  (exists head, occurs "," head = false /\ dataUrl = head ++ ",") ->
  let w1 := upload file (Loaded dataUrl) w in
  let w2 := step w1 GenerateClicked in
  Js.truthy (base64ImageData w1) = false /\
  disabled (dom w1 generateBtn) = false /\
  is_hidden (dom w1 imagePreview) = false /\
  shown w1 = shown w /\
  error_shown "Please upload an image first." w2 /\
  sent w2 = sent w1 /\
  inFlight w2 = inFlight w1.
Proof.
  intros H w1 w2.
  assert (Hs : Js.truthy (Js.index (Js.split "," dataUrl) 1) = false).
  { destruct H as [H|(head & Hh & ->)].
    - rewrite (split_index_1_free "," dataUrl H). reflexivity.
    - change (head ++ ",") with (head ++ String "," "").
      rewrite (split_index_1_at "," head "" Hh eq_refl). reflexivity. }
  assert (H1 : base64ImageData w1 = Js.index (Js.split "," dataUrl) 1 /\
               disabled (dom w1 generateBtn) = false /\
               is_hidden (dom w1 imagePreview) = false /\
               shown w1 = shown w).
  { subst w1. rewrite upload_loaded.
    unfold handleImageUpload_settled. dom_simpl. repeat split. }
  destruct H1 as (Hd & He & Hp & Hsh).
  assert (H2 : w2 = showError "Please upload an image first." w1).
  { subst w2. cbn [step]. rewrite He.
    apply handleGenerateClick_no_upload. left. rewrite Hd. exact Hs. }
  rewrite Hd. repeat (split; [assumption|]).
  rewrite H2. split; [apply showError_error_shown|]. split; reflexivity.
Qed.

Lemma upload_without_payload_witness :
  occurs "," "data:" = false /\
  error_shown "Please upload an image first."
    (step (upload png_file (Loaded "data:") fresh_page) GenerateClicked).
Proof.
  split; [reflexivity|].
  exact (proj1 (proj2 (proj2 (proj2 (proj2
    (upload_without_payload fresh_page png_file "data:"
       (or_introl eq_refl))))))).
Defined.

(** X4: a successful upload changes the preview, the stored pair and the
    generate button only: the loader, the result, the output placeholder
    (and an error it may show), the download button, the camera button,
    the upload label and the style selector are left as they were, and
    nothing is sent or saved. *)
Theorem upload_success_keeps_output (w : World) (file : File)
  (dataUrl : string) (e : ElemId) :
  In e [loader; generatedImage; outputPlaceholder; downloadBtn; cameraBtn;
        uploadLabel; styleSelect] ->
  let w' := upload file (Loaded dataUrl) w in
  dom w' e = dom w e /\
  shown w' = shown w /\
  sent w' = sent w /\
  inFlight w' = inFlight w /\
  saved w' = saved w.
Proof.
  intros He w'. subst w'. rewrite upload_loaded.
  unfold handleImageUpload_settled.
  cbn in He. decompose [or] He; try contradiction; subst e; repeat split.
Qed.

Lemma upload_success_keeps_output_witness :
  In outputPlaceholder
    [loader; generatedImage; outputPlaceholder; downloadBtn; cameraBtn;
     uploadLabel; styleSelect] /\
  dom (upload png_file (Loaded "data:image/png;base64,QUJD") fresh_page)
    outputPlaceholder
  = dom fresh_page outputPlaceholder.
Proof.
  split; [cbn; tauto|].
  exact (proj1
    (upload_success_keeps_output fresh_page png_file
       "data:image/png;base64,QUJD" outputPlaceholder
       (or_intror (or_intror (or_introl eq_refl))))).
Defined.

(** X5: when two files are chosen and their reads end in the opposite
    order, the stored upload and the preview are those of the read that
    ended last, that is of the file chosen first. *)
Theorem last_settled_read_wins (w : World) (f1 f2 : File) (u1 u2 : string) :
  let n := length (reading w) in
  let w' :=
    run w [ FileChosen (Some f1); FileChosen (Some f2);
            ReadSettled (S n) (Loaded u2); ReadSettled n (Loaded u1) ] in
  mimeType w' = Js.Str (file_type f1) /\
  base64ImageData w' = Js.index (Js.split "," u1) 1 /\
  src (dom w' imagePreview)
  = "data:" ++ file_type f1 ++ ";base64,"
    ++ Js.to_string (Js.index (Js.split "," u1) 1) /\
  reading w' = reading w.
Proof.
  intros n w'. subst w' n. unfold run.
  cbn [fold_left step handleImageUpload].
  assert (Hr : reading (start_read f2 (start_read f1 w))
               = ((reading w ++ [f1]) ++ [f2])%list) by reflexivity.
  assert (Hn : S (length (reading w)) = length (reading w ++ [f1])%list)
    by (rewrite length_app; cbn; lia).
  rewrite Hr, Hn, nth_error_snoc, remove_nth_snoc.
  rewrite fileToGenerativePart_settles.
  set (w1 := handleImageUpload_settled _ _).
  assert (Hr1 : reading w1 = (reading w ++ [f1])%list) by reflexivity.
  rewrite Hr1, nth_error_snoc, remove_nth_snoc.
  rewrite fileToGenerativePart_settles.
  unfold handleImageUpload_settled. dom_simpl. repeat split.
Qed.

(** ** Generation attempts *)

Lemma attr_get_set (name v : string) (l : list (string * string)) :
  attr_get name (attr_set name v l) = Some v.
Proof.
  unfold attr_get, attr_set. cbn. rewrite String.eqb_refl. reflexivity.
Qed.

Lemma attr_get_remove (name : string) (l : list (string * string)) :
  attr_get name (attr_remove name l) = None.
Proof.
  unfold attr_get, attr_remove.
  induction l as [|[n v] l IH]; [reflexivity|].
  cbn. destruct (String.eqb name n) eqn:E; cbn; [exact IH|].
  rewrite E. exact IH.
Qed.

Lemma hollow_parts (r : Api.Response) : hollow r -> Api.parts_of r = [].
Proof. intros []; reflexivity. Qed.

(** X6: a response from which the chain [candidates?.[0]?.content?.parts]
    yields nothing (no candidates, no content, no parts, or an empty list
    of parts) does not throw: it ends in the 'did not return an image'
    error display, with nothing logged as an API error. *)
Theorem hollow_response_is_failure (w : World) (r : Api.Response) :
  ready w -> hollow r ->
  let w' := generate (Api.Returned r) w in
  error_shown "The model did not return an image. Please try again." w' /\
  shown w'
  = app (shown w) ["The model did not return an image. Please try again."] /\
  console w' = console w /\
  idle w'.
Proof.
  intros Hr Hh w'. subst w'.
  assert (Hf : first_inline (Api.parts_of r) = None)
    by (rewrite (hollow_parts r Hh); reflexivity).
  rewrite (generate_not_found r w Hr Hf).
  split; [apply setLoading_false_error_shown, showError_error_shown|].
  unfold idle, setLoading, showError. dom_simpl. repeat split.
Qed.

Lemma hollow_response_is_failure_witness :
  ready uploaded_page /\ hollow (Api.mkResponse None) /\
  error_shown "The model did not return an image. Please try again."
    (generate (Api.Returned (Api.mkResponse None)) uploaded_page).
Proof.
  split; [exact uploaded_page_ready|].
  split; [exact hollow_no_candidates|].
  exact (proj1
    (hollow_response_is_failure uploaded_page (Api.mkResponse None)
       uploaded_page_ready hollow_no_candidates)).
Defined.

(** X7: only the first candidate of a response is looked at: two
    responses with the same first candidate leave the page in the same
    state, whatever the other candidates carry. *)
Theorem only_first_candidate_counts (w : World) (c : Api.Candidate)
  (cs cs' : list Api.Candidate) :
  generate (Api.Returned (Api.mkResponse (Some (c :: cs)))) w
  = generate (Api.Returned (Api.mkResponse (Some (c :: cs')))) w.
Proof.
  unfold generate, run. cbn [fold_left].
  set (w1 := step w GenerateClicked). cbn [step].
  destruct (nth_error (inFlight w1) (length (inFlight w))); reflexivity.
Qed.

(** X8: an accepted click on generate sends exactly one call: the model
    [gemini-2.5-flash-image-preview], the stored image data and mime type
    as the image part, the text 'Transform this image into a <style>
    style.' with the style selected at the time of the click, and the two
    response modalities; the stored pair is not changed. *)
Theorem request_carries_upload_and_style (w : World) :
  ready w ->
  let w' := step w GenerateClicked in
  let request :=
    Api.mkParams "gemini-2.5-flash-image-preview"
      [ Api.mkPart
          (Some (Api.mkInlineData (base64ImageData w) (mimeType w))) None;
        Api.mkPart None
          (Some ("Transform this image into a "
                 ++ value (dom w styleSelect) ++ " style.")) ]
      [Api.IMAGE; Api.TEXT] in
  sent w' = (sent w ++ [request])%list /\
  inFlight w' = (inFlight w ++ [request])%list /\
  base64ImageData w' = base64ImageData w /\
  mimeType w' = mimeType w /\
  shown w' = shown w.
Proof.
  intros (Hd & Hm & He) w' request. subst w' request. cbn [step].
  rewrite He, (handleGenerateClick_loading w Hd Hm). repeat split.
Qed.

Lemma request_carries_upload_and_style_witness :
  ready uploaded_page /\
  sent (step uploaded_page GenerateClicked)
  = [ Api.mkParams "gemini-2.5-flash-image-preview"
        [ Api.mkPart
            (Some (Api.mkInlineData (Js.Str "iVBORw0KGgo=")
                     (Js.Str "image/png"))) None;
          Api.mkPart None
            (Some "Transform this image into a watercolor style.") ]
        [Api.IMAGE; Api.TEXT] ].
Proof.
  split; [exact uploaded_page_ready|].
  exact (proj1 (request_carries_upload_and_style uploaded_page
                  uploaded_page_ready)).
Defined.

(** X9: right after an accepted click on generate, before any other
    event is handled, the page is in its loading state: the generate and
    camera buttons are disabled, the upload label carries
    [aria-disabled="true"], the loader is on screen, and the result, the
    output placeholder and the download button are hidden. *)
Theorem loading_screen (w : World) :
  ready w ->
  let w' := step w GenerateClicked in
  disabled (dom w' generateBtn) = true /\
  disabled (dom w' cameraBtn) = true /\
  attr_get "aria-disabled" (attributes (dom w' uploadLabel)) = Some "true" /\
  is_hidden (dom w' loader) = false /\
  is_hidden (dom w' generatedImage) = true /\
  is_hidden (dom w' outputPlaceholder) = true /\
  is_hidden (dom w' downloadBtn) = true.
Proof.
  intros (Hd & Hm & He) w'. subst w'. cbn [step].
  rewrite He, (handleGenerateClick_loading w Hd Hm).
  unfold setLoading. dom_simpl. rewrite attr_get_set. repeat split.
Qed.

Lemma loading_screen_witness :
  ready uploaded_page /\
  is_hidden (dom (step uploaded_page GenerateClicked) loader) = false.
Proof.
  split; [exact uploaded_page_ready|].
  exact (proj1 (proj2 (proj2 (proj2
    (loading_screen uploaded_page uploaded_page_ready))))).
Defined.

Lemma handleGenerateClick_settled_leaves (o : Api.Outcome) (w : World) :
  idle (handleGenerateClick_settled o w) /\
  attr_get "aria-disabled"
    (attributes (dom (handleGenerateClick_settled o w) uploadLabel)) = None /\
  is_hidden (dom (handleGenerateClick_settled o w) downloadBtn) = true /\
  inFlight (handleGenerateClick_settled o w) = inFlight w /\
  sent (handleGenerateClick_settled o w) = sent w /\
  base64ImageData (handleGenerateClick_settled o w) = base64ImageData w /\
  mimeType (handleGenerateClick_settled o w) = mimeType w.
Proof.
  destruct o as [e|r].
  - unfold handleGenerateClick_settled, idle, setLoading, showError.
    dom_simpl. rewrite attr_get_remove. repeat split.
  - destruct (scan_parts_cases (Api.parts_of r) w) as [Hn|[d Hd]].
    + rewrite (handleGenerateClick_settled_no_image r w Hn).
      unfold idle, setLoading, showError.
      dom_simpl. rewrite attr_get_remove. repeat split.
    + rewrite (handleGenerateClick_settled_image r d w Hd).
      unfold idle, setLoading, show_result.
      dom_simpl. rewrite attr_get_remove. repeat split.
Qed.

(** X10: however the call settles (thrown error, response with or
    without an image), the [finally] block runs: the loader is hidden, the
    generate and camera buttons are enabled, [aria-disabled] is removed
    from the upload label, the download button is hidden, the call is no
    longer pending and the stored pair is as it was. *)
Theorem generate_always_leaves_loading (w : World) (o : Api.Outcome) :
  ready w ->
  let w' := generate o w in
  idle w' /\
  attr_get "aria-disabled" (attributes (dom w' uploadLabel)) = None /\
  is_hidden (dom w' downloadBtn) = true /\
  inFlight w' = inFlight w /\
  sent w' = (sent w ++ [request_of w])%list /\
  base64ImageData w' = base64ImageData w /\
  mimeType w' = mimeType w.
Proof.
  intros Hr w'. subst w'. rewrite (generate_ready o w Hr).
  destruct (handleGenerateClick_settled_leaves o
              (set_inFlight (inFlight w)
                 (generateContent (request_of w) (setLoading true w))))
    as (H1 & H2 & H3 & H4 & H5 & H6 & H7).
  split; [exact H1|]. split; [exact H2|]. split; [exact H3|].
  split; [exact H4|]. split; [exact H5|]. split; [exact H6|exact H7].
Qed.

Lemma generate_always_leaves_loading_witness :
  ready uploaded_page /\
  idle (generate (Api.Threw "timeout") uploaded_page).
Proof.
  split; [exact uploaded_page_ready|].
  exact (proj1 (generate_always_leaves_loading uploaded_page
                  (Api.Threw "timeout") uploaded_page_ready)).
Defined.

(** ** What holds along every run of the page *)

Lemma step_download_hidden (w : World) (ev : Event) :
  is_hidden (dom w downloadBtn) = true ->
  is_hidden (dom (step w ev) downloadBtn) = true.
Proof.
  intro Hw. destruct ev as [file|i r| |i o|now]; cbn [step].
  - destruct file; exact Hw.
  - destruct (nth_error (reading w) i) as [file|]; [|exact Hw].
    rewrite fileToGenerativePart_settles. destruct r as [u|e|].
    + unfold handleImageUpload_settled. dom_simpl. exact Hw.
    + apply (handleImageUpload_settled_rejected e).
    + apply (handleImageUpload_settled_rejected
               "Failed to read file as string.").
  - destruct (disabled (dom w generateBtn)); [exact Hw|].
    unfold handleGenerateClick.
    destruct (negb (Js.truthy (base64ImageData w))
              || negb (Js.truthy (mimeType w))).
    + apply showError_error_shown.
    + unfold setLoading. dom_simpl. reflexivity.
  - destruct (nth_error (inFlight w) i) as [p|]; [|exact Hw].
    destruct (handleGenerateClick_settled_leaves o
                (set_inFlight (remove_nth i (inFlight w)) w))
      as (_ & _ & Hd & _).
    exact Hd.
  - unfold handleDownloadClick.
    destruct ((src (dom w generatedImage) =? "")
              || negb (Js.startsWith "data:" (src (dom w generatedImage)))).
    + unfold seq. apply showError_error_shown.
    + exact Hw.
Qed.

(** X11: the download button is never left visible: started with the
    button hidden, the page has it hidden after every event, whatever the
    events and their order, a generation that returned an image
    included. *)
Theorem run_download_hidden (evs : list Event) (w : World) :
  is_hidden (dom w downloadBtn) = true ->
  is_hidden (dom (run w evs) downloadBtn) = true.
Proof.
  revert w. induction evs as [|ev evs IH]; intros w H; [exact H|].
  apply (IH (step w ev)), step_download_hidden, H.
Qed.

Lemma run_download_hidden_witness :
  is_hidden (dom fresh_page downloadBtn) = true /\
  is_hidden
    (dom (run fresh_page
            [ FileChosen (Some png_file);
              ReadSettled 0 (Loaded "data:image/png;base64,QUJD");
              GenerateClicked;
              GenerateSettled 0
                (Api.Returned (response_of [image_part "image/png" "REVG"])) ])
       downloadBtn) = true.
Proof.
  split; [reflexivity|].
  exact (run_download_hidden
           [ FileChosen (Some png_file);
             ReadSettled 0 (Loaded "data:image/png;base64,QUJD");
             GenerateClicked;
             GenerateSettled 0
               (Api.Returned (response_of [image_part "image/png" "REVG"])) ]
           fresh_page eq_refl).
Defined.

Lemma nth_error_some_nonempty {A} (l : list A) (i : nat) (x : A) :
  nth_error l i = Some x -> l <> [].
Proof. intros H ->. destruct i; discriminate H. Qed.

Lemma step_loader_backed (w : World) (ev : Event) :
  loader_backed w -> loader_backed (step w ev).
Proof.
  intro Hw. destruct ev as [file|i r| |i o|now]; cbn [step].
  - destruct file; exact Hw.
  - destruct (nth_error (reading w) i) as [file|]; [|exact Hw].
    rewrite fileToGenerativePart_settles.
    destruct r as [u|e|];
      unfold loader_backed, handleImageUpload_settled, showError in *;
      dom_simpl; exact Hw.
  - destruct (disabled (dom w generateBtn)); [exact Hw|].
    unfold handleGenerateClick.
    destruct (negb (Js.truthy (base64ImageData w))
              || negb (Js.truthy (mimeType w))).
    + unfold loader_backed, showError in *. dom_simpl. exact Hw.
    + right. cbn. intro H. apply app_eq_nil in H. destruct H as [_ H].
      discriminate H.
  - destruct (nth_error (inFlight w) i) as [p|]; [|exact Hw].
    left.
    destruct (handleGenerateClick_settled_leaves o
                (set_inFlight (remove_nth i (inFlight w)) w))
      as ((Hl & _) & _).
    exact Hl.
  - unfold handleDownloadClick.
    destruct ((src (dom w generatedImage) =? "")
              || negb (Js.startsWith "data:" (src (dom w generatedImage)))).
    + unfold loader_backed, seq, showError in *. dom_simpl. exact Hw.
    + exact Hw.
Qed.

(** X12: the loader is on screen only while a call is pending: started
    with the loader hidden, the page never shows the loader with no call
    in flight, whatever the events and their order. *)
Theorem run_loader_backed (evs : list Event) (w : World) :
  is_hidden (dom w loader) = true ->
  is_hidden (dom (run w evs) loader) = true \/ inFlight (run w evs) <> [].
Proof.
  intro H. assert (Hb : loader_backed w) by (left; exact H). clear H.
  revert w Hb. induction evs as [|ev evs IH]; intros w H; [exact H|].
  apply (IH (step w ev)), step_loader_backed, H.
Qed.

Lemma run_loader_backed_witness :
  is_hidden (dom uploaded_page loader) = true /\
  is_hidden (dom (run uploaded_page [GenerateClicked]) loader) = false /\
  length (inFlight (run uploaded_page [GenerateClicked])) = 1 /\
  (is_hidden (dom (run uploaded_page [GenerateClicked]) loader) = true \/
   inFlight (run uploaded_page [GenerateClicked]) <> []).
Proof.
  assert (H : is_hidden (dom uploaded_page loader) = true)
    by (vm_compute; reflexivity).
  split; [exact H|].
  split; [vm_compute; reflexivity|].
  split; [vm_compute; reflexivity|].
  exact (run_loader_backed [GenerateClicked] uploaded_page H).
Defined.

Lemma remove_nth_single {A} (l : list A) (i : nat) (x : A) :
  length l = 1 -> nth_error l i = Some x -> remove_nth i l = [].
Proof.
  destruct l as [|y [|z l]]; try discriminate. intros _ H.
  destruct i as [|i]; [reflexivity|]. destruct i; discriminate H.
Qed.

Lemma step_single_flight (w : World) (ev : Event) :
  no_read_success ev -> single_flight w -> single_flight (step w ev).
Proof.
  intros Hq Hw. destruct ev as [file|i r| |i o|now]; cbn [step].
  - destruct file; exact Hw.
  - destruct r as [u|e|]; [destruct Hq| |];
      (destruct (nth_error (reading w) i) as [file|]; [|exact Hw]);
      rewrite fileToGenerativePart_settles;
      unfold single_flight, handleImageUpload_settled, showError in *;
      dom_simpl; exact Hw.
  - destruct (disabled (dom w generateBtn)) eqn:Ed; [exact Hw|].
    destruct Hw as [Hw|[_ Hw]]; [|congruence].
    unfold handleGenerateClick.
    destruct (negb (Js.truthy (base64ImageData w))
              || negb (Js.truthy (mimeType w))).
    + left. exact Hw.
    + right. cbn. rewrite Hw. split; reflexivity.
  - destruct (nth_error (inFlight w) i) as [p|] eqn:En; [|exact Hw].
    left.
    destruct (handleGenerateClick_settled_leaves o
                (set_inFlight (remove_nth i (inFlight w)) w))
      as (_ & _ & _ & Hi & _).
    rewrite Hi. cbn [set_inFlight inFlight].
    destruct Hw as [Hw|[Hw _]].
    + rewrite Hw in En. destruct i; discriminate En.
    + exact (remove_nth_single _ i p Hw En).
  - unfold handleDownloadClick.
    destruct ((src (dom w generatedImage) =? "")
              || negb (Js.startsWith "data:" (src (dom w generatedImage))));
      unfold single_flight, seq, showError in *; dom_simpl; exact Hw.
Qed.

(** X13: as long as no file read ends well in between, at most one call
    is in flight: started with none pending, the page has at most one
    pending call after any sequence of clicks, file choices, failed reads
    and settled calls. *)
Theorem run_single_flight (evs : list Event) (w : World) :
  inFlight w = [] -> Forall no_read_success evs ->
  length (inFlight (run w evs)) <= 1.
Proof.
  intros H Hq.
  assert (Hs : single_flight (run w evs)).
  { assert (Hw : single_flight w) by (left; exact H). clear H.
    revert w Hw. induction Hq as [|ev evs Hev _ IH]; intros w Hw; [exact Hw|].
    apply (IH (step w ev)), step_single_flight; assumption. }
  destruct Hs as [Hs|[Hs _]]; rewrite Hs; cbn; lia.
Qed.

Lemma run_single_flight_witness :
  inFlight uploaded_page = [] /\
  Forall no_read_success
    [GenerateClicked; GenerateClicked; FileChosen (Some jpeg_file);
     GenerateClicked] /\
  length
    (inFlight
       (run uploaded_page
          [GenerateClicked; GenerateClicked; FileChosen (Some jpeg_file);
           GenerateClicked])) <= 1.
Proof.
  split; [reflexivity|].
  split; [repeat constructor|].
  exact (run_single_flight
           [GenerateClicked; GenerateClicked; FileChosen (Some jpeg_file);
            GenerateClicked]
           uploaded_page eq_refl
           (Forall_cons GenerateClicked I
              (Forall_cons GenerateClicked I
                 (Forall_cons (FileChosen (Some jpeg_file)) I
                    (Forall_cons GenerateClicked I
                       (Forall_nil no_read_success)))))).
Defined.

(** ** Downloads *)

Lemma handleDownloadClick_saves (now : N) (w : World) :
  Js.startsWith "data:" (src (dom w generatedImage)) = true ->
  handleDownloadClick now w
  = save_link (src (dom w generatedImage))
      ("stylized-image-" ++ Js.of_N now ++ "."
       ++ extension_of (src (dom w generatedImage))) w.
Proof.
  intro Hp. unfold handleDownloadClick. rewrite Hp.
  assert (Hn : (src (dom w generatedImage) =? "") = false).
  { destruct (src (dom w generatedImage)); [discriminate Hp|reflexivity]. }
  rewrite Hn. reflexivity.
Qed.

(** X14: a click on download saves exactly when the [src] of the result
    starts with [data:]: then one link is saved, its [href] the [src] and
    its name built from the time and the extension, and nothing is shown
    or logged; otherwise (no result yet, or a [src] of another scheme)
    nothing is saved and 'No image available to download.' is shown and
    logged. *)
Theorem download_requires_data_uri (now : N) (w : World) :
  let url := src (dom w generatedImage) in
  let w' := handleDownloadClick now w in
  if Js.startsWith "data:" url
  then
    saved w'
    = app (saved w)
        [(url, "stylized-image-" ++ Js.of_N now ++ "." ++ extension_of url)] /\
    shown w' = shown w /\
    console w' = console w /\
    journal w' = journal w
  else
    saved w' = saved w /\
    error_shown "No image available to download." w' /\
    shown w' = app (shown w) ["No image available to download."] /\
    console w'
    = app (console w) ["No generated image source available to download."].
Proof.
  intros url w'. subst url w'.
  destruct (Js.startsWith "data:" (src (dom w generatedImage))) eqn:Hp.
  - rewrite (handleDownloadClick_saves now w Hp). repeat split.
  - unfold handleDownloadClick. rewrite Hp, orb_true_r. unfold seq.
    split; [reflexivity|].
    split; [apply showError_error_shown|]. split; reflexivity.
Qed.

Lemma span_first_clean (s : string) :
  occurs ";" (fst (span_not_semicolon s)) = false.
Proof.
  induction s as [|x s IH]; [reflexivity|].
  cbn [span_not_semicolon]. destruct (Ascii.eqb x ";") eqn:E; [reflexivity|].
  destruct (span_not_semicolon s) as [m rest]. cbn in *. rewrite E. exact IH.
Qed.

Lemma match_here_some (s m : string) :
  match_here s = Some m -> m <> "" /\ occurs ";" m = false.
Proof.
  unfold match_here. destruct (strip "data:" s) as [r|]; [|discriminate].
  pose proof (span_first_clean r) as Hc.
  destruct (span_not_semicolon r) as [[|c m'] [|c' rest]]; try discriminate.
  intro H. injection H as <-. split; [discriminate|exact Hc].
Qed.

Lemma match_data_mime_cases (s : string) :
  match_data_mime s = Js.Undefined \/
  exists m, match_data_mime s = Js.Str m /\ m <> "" /\ occurs ";" m = false.
Proof.
  induction s as [|x s IH]; cbn [match_data_mime].
  - destruct (match_here "") as [m|] eqn:E; [|left; reflexivity].
    right. exists m. split; [reflexivity|]. apply (match_here_some _ _ E).
  - destruct (match_here (String x s)) as [m|] eqn:E; [|exact IH].
    right. exists m. split; [reflexivity|]. apply (match_here_some _ _ E).
Qed.

(** A piece of a split has no separator in it. *)
Lemma split_go_piece_sep (sep : ascii) (s cur p : string) :
  occurs sep cur = false -> In p (Js.split_go sep s cur) ->
  occurs sep p = false.
Proof.
  revert cur. induction s as [|x s IH]; intros cur Hc Hp.
  - cbn in Hp. destruct Hp as [<-|[]]. exact Hc.
  - cbn [Js.split_go] in Hp. destruct (Ascii.eqb x sep) eqn:E.
    + destruct Hp as [<-|Hp]; [exact Hc|]. apply (IH "" eq_refl Hp).
    + apply (IH (cur ++ String x "")); [|exact Hp].
      rewrite occurs_append, Hc. cbn. rewrite E. reflexivity.
Qed.

(** A piece of a split has only characters of the string split. *)
Lemma split_go_piece_char (sep c : ascii) (s cur p : string) :
  occurs c cur = false -> occurs c s = false ->
  In p (Js.split_go sep s cur) -> occurs c p = false.
Proof.
  revert cur. induction s as [|x s IH]; intros cur Hc Hs Hp.
  - cbn in Hp. destruct Hp as [<-|[]]. exact Hc.
  - cbn in Hs. apply orb_false_iff in Hs. destruct Hs as [Hx Hs].
    cbn [Js.split_go] in Hp. destruct (Ascii.eqb x sep).
    + destruct Hp as [<-|Hp]; [exact Hc|]. apply (IH "" eq_refl Hs Hp).
    + apply (IH (cur ++ String x "")); [|exact Hs|exact Hp].
      rewrite occurs_append, Hc. cbn. rewrite Hx. reflexivity.
Qed.

Lemma index_in (arr : list string) (i : nat) (b : string) :
  Js.index arr i = Js.Str b -> In b arr.
Proof.
  unfold Js.index. destruct (nth_error arr i) as [x|] eqn:E; [|discriminate].
  intro H. injection H as <-. exact (nth_error_In _ _ E).
Qed.

Lemma second_piece_clean (mt : string) :
  occurs ";" mt = false ->
  let ext := Js.or_default (Js.index (Js.split "/" mt) 1) "png" in
  ext <> "" /\ occurs "/" ext = false /\ occurs ";" ext = false.
Proof.
  intros Hm ext. subst ext. unfold Js.or_default.
  destruct (Js.index (Js.split "/" mt) 1) as [| |b] eqn:E;
    cbn [Js.truthy]; try (repeat split; discriminate).
  destruct (b =? "") eqn:Eb; cbn [negb Js.to_string];
    [repeat split; discriminate|].
  apply index_in in E. unfold Js.split in E.
  split; [intros ->; discriminate Eb|].
  split.
  - exact (split_go_piece_sep "/" mt "" b eq_refl E).
  - exact (split_go_piece_char "/" ";" mt "" b eq_refl Hm E).
Qed.

(** X15: whatever the result URL, the extension the download handler
    derives is never empty and contains neither ['/'] nor [';']: the saved
    name always ends in a dot followed by a usable extension. *)
Theorem extension_of_clean (url : string) :
  extension_of url <> "" /\
  occurs "/" (extension_of url) = false /\
  occurs ";" (extension_of url) = false.
Proof.
  unfold extension_of.
  destruct (match_data_mime_cases url) as [H|(m & H & Hne & Hm)]; rewrite H.
  - exact (second_piece_clean "image/png" eq_refl).
  - rewrite (or_default_nonempty m _ Hne). exact (second_piece_clean m Hm).
Qed.






(** ** The extension of every result URL *)

Lemma span_spec (r : string) :
  r = fst (span_not_semicolon r) ++ snd (span_not_semicolon r) /\
  (snd (span_not_semicolon r) = "" \/
   exists rest, snd (span_not_semicolon r) = String ";" rest).
Proof.
  induction r as [|x r IH]; [split; [reflexivity|left; reflexivity]|].
  cbn [span_not_semicolon]. destruct (Ascii.eqb x ";") eqn:E.
  - apply Ascii.eqb_eq in E. subst x. cbn.
    split; [reflexivity|right; exists r; reflexivity].
  - destruct (span_not_semicolon r) as [m t]. cbn [fst snd] in *.
    destruct IH as [IH1 IH2]. split; [|exact IH2].
    rewrite IH1 at 1. reflexivity.
Qed.

Lemma match_here_at_head (s m : string) :
  match_here s = Some m -> media_type_at_head s m.
Proof.
  intro H. destruct (match_here_some s m H) as [Hne Hm].
  split; [exact Hne|]. split; [exact Hm|].
  unfold match_here in H. destruct (strip "data:" s) as [r|] eqn:Es;
    [|discriminate H].
  apply strip_some in Es. subst s.
  destruct (span_spec r) as [Hr Ht].
  destruct (span_not_semicolon r) as [[|c m'] [|c' t]]; try discriminate H.
  injection H as <-. cbn [fst snd] in *.
  destruct Ht as [Ht|[rest Ht]]; [discriminate Ht|].
  injection Ht as -> ->. exists rest. rewrite Hr at 1. reflexivity.
Qed.

Lemma at_head_match_here (s m : string) :
  media_type_at_head s m -> match_here s = Some m.
Proof.
  intros (Hne & Hm & rest & ->). unfold match_here.
  change (";" ++ rest) with (String ";" rest).
  rewrite strip_append, (span_at m rest Hm).
  destruct m; [contradiction|reflexivity].
Qed.

Lemma match_data_mime_unfold (s : string) :
  match_data_mime s
  = match match_here s with
    | Some m => Js.Str m
    | None =>
        match s with
        | EmptyString => Js.Undefined
        | String _ s' => match_data_mime s'
        end
    end.
Proof. destruct s; reflexivity. Qed.

(** The regular expression finds the first media type of the URL. *)
Lemma first_media_type_sound (s : string) (r : option string) :
  first_media_type s r -> match_data_mime s = value_of r.
Proof.
  induction 1 as [s m Hm|c s r Hn _ IH|].
  - rewrite match_data_mime_unfold, (at_head_match_here s m Hm). reflexivity.
  - rewrite match_data_mime_unfold.
    destruct (match_here (String c s)) as [m|] eqn:E; [|exact IH].
    destruct (Hn m (match_here_at_head _ _ E)).
  - reflexivity.
Qed.

Lemma first_media_type_total (s : string) : exists r, first_media_type s r.
Proof.
  induction s as [|c s [r IH]]; [exists None; constructor|].
  destruct (match_here (String c s)) as [m|] eqn:E.
  - exists (Some m). apply fmt_here, match_here_at_head, E.
  - exists r. apply fmt_later; [|exact IH].
    intros m Hm. rewrite (at_head_match_here _ _ Hm) in E. discriminate E.
Qed.

Lemma first_media_type_nonempty (s m : string) :
  first_media_type s (Some m) -> m <> "".
Proof.
  intro H. apply first_media_type_sound in H. cbn in H.
  destruct (match_data_mime_cases s) as [Hu|(m' & Hs & Hne & _)];
    rewrite H in *; [discriminate Hu|].
  injection Hs as ->. exact Hne.
Qed.

Lemma occurs_split (c : ascii) (s : string) :
  occurs c s = true ->
  exists a b, s = a ++ String c b /\ occurs c a = false.
Proof.
  induction s as [|x s IH]; [discriminate|].
  cbn [occurs]. destruct (Ascii.eqb x c) eqn:E.
  - intros _. apply Ascii.eqb_eq in E. subst x.
    exists "", s. split; reflexivity.
  - cbn [orb]. intro H. destruct (IH H) as (a & b & -> & Ha).
    exists (String x a), b. split; [reflexivity|].
    cbn [occurs]. rewrite E. exact Ha.
Qed.

(** [split('/')[1]] is the second piece. *)
Lemma second_piece_sound (m : string) (r : option string) :
  second_piece m r -> Js.index (Js.split "/" m) 1 = value_of r.
Proof.
  intros [m' H|a b Ha Hb|a b c Ha Hb].
  - apply split_index_1_free, H.
  - change ("/" ++ b) with (String "/" b).
    apply (split_index_1_at "/" a b Ha Hb).
  - change ("/" ++ b ++ "/" ++ c) with (String "/" (b ++ String "/" c)).
    unfold Js.split.
    rewrite (split_go_at "/" a (b ++ String "/" c) "" Ha).
    rewrite (split_go_at "/" b c "" Hb). reflexivity.
Qed.

Lemma second_piece_total (m : string) : exists r, second_piece m r.
Proof.
  destruct (occurs "/" m) eqn:E; [|exists None; constructor; exact E].
  destruct (occurs_split "/" m E) as (a & m' & -> & Ha).
  destruct (occurs "/" m') eqn:E'.
  - destruct (occurs_split "/" m' E') as (b & c & -> & Hb).
    exists (Some b). apply (piece_mid a b c Ha Hb).
  - exists (Some m'). apply (piece_last a m' Ha E').
Qed.

(** The handler's extension is the extension of the URL, and every URL
    has exactly one. *)
Lemma extension_is_sound (url ext : string) :
  extension_is url ext -> extension_of url = ext.
Proof.
  intros [m b Hm Hb Hne|m Hm Hb|m Hm Hb|Hn]; unfold extension_of.
  - rewrite (first_media_type_sound _ _ Hm). cbn [value_of].
    rewrite (or_default_nonempty m _ (first_media_type_nonempty _ _ Hm)).
    rewrite (second_piece_sound _ _ Hb). cbn [value_of].
    apply or_default_nonempty, Hne.
  - rewrite (first_media_type_sound _ _ Hm). cbn [value_of].
    rewrite (or_default_nonempty m _ (first_media_type_nonempty _ _ Hm)).
    rewrite (second_piece_sound _ _ Hb). reflexivity.
  - rewrite (first_media_type_sound _ _ Hm). cbn [value_of].
    rewrite (or_default_nonempty m _ (first_media_type_nonempty _ _ Hm)).
    rewrite (second_piece_sound _ _ Hb). reflexivity.
  - rewrite (first_media_type_sound _ _ Hn). reflexivity.
Qed.

Lemma extension_is_total (url : string) : extension_is url (extension_of url).
Proof.
  assert (H : exists ext, extension_is url ext).
  { destruct (first_media_type_total url) as [[m|] Hm].
    - destruct (second_piece_total m) as [[[|c b]|] Hb].
      + exists "png". apply (extension_png_empty url m Hm Hb).
      + exists (String c b).
        apply (extension_subtype url m (String c b) Hm Hb). discriminate.
      + exists "png". apply (extension_png_no_slash url m Hm Hb).
    - exists "png". apply (extension_png_no_media_type url Hm). }
  destruct H as [ext H]. rewrite (extension_is_sound url ext H). exact H.
Qed.

Lemma jpeg_uri_extension :
  extension_is "data:image/jpeg;base64,QUJD" "jpeg".
Proof.
  apply (extension_subtype _ "image/jpeg" "jpeg").
  - apply fmt_here. split; [discriminate|]. split; [reflexivity|].
    exists "base64,QUJD". reflexivity.
  - apply (piece_last "image" "jpeg"); reflexivity.
  - discriminate.
Qed.

(** A URL without [';'] has no media type, and its extension is [png]. *)
Lemma unparseable_uri_extension (url : string) :
  occurs ";" url = false -> extension_is url "png".
Proof.
  intro H. pose proof (extension_is_total url) as He.
  unfold extension_of in He.
  rewrite (match_data_mime_no_semicolon url H) in He. exact He.
Qed.

(** C7, as stated, fails: a result whose media type is malformed, with
    two slashes, is not saved as [.png] but under its second piece; and
    an absent media type followed by a later [data:...;] gives the
    subtype found there. *)
Lemma malformed_media_type_not_png :
  src (dom two_slash_result_page generatedImage) = "data:a/b/c;base64,QUJD" /\
  saved (handleDownloadClick 1700000000000 two_slash_result_page)
  = [("data:a/b/c;base64,QUJD", "stylized-image-1700000000000.b")] /\
  extension_of "data:a/b/c;base64,QUJD" <> "png" /\
  extension_of "data:;base64,data:text/html;" = "html".
Proof.
  split; [vm_compute; reflexivity|].
  split; [vm_compute; reflexivity|].
  split; [discriminate|reflexivity].
Qed.

(** C7, amended: for every displayed result whose URL starts with
    [data:], the download is saved under the name
    [stylized-image-<now>.<ext>], where [<ext>] is the one extension of
    the URL: what stands between the first and the second ['/'] of its
    media type (the first non-empty run without [';'] that follows a
    [data:] and is closed by [';']), and [png] when the URL has no media
    type, when the media type has no ['/'] or when nothing stands there;
    no error is shown. *)
Theorem download_filename_by_media_type (w : World) (now : N)
  (url : string) :
  src (dom w generatedImage) = url ->
  Js.startsWith "data:" url = true ->
  let w' := handleDownloadClick now w in
  exists ext,
    extension_is url ext /\
    (forall ext', extension_is url ext' -> ext' = ext) /\
    saved w'
    = app (saved w)
        [(url, "stylized-image-" ++ Js.of_N now ++ "." ++ ext)] /\
    shown w' = shown w /\
    journal w' = journal w.
Proof.
  intros Hs Hp w'. subst w'. exists (extension_of url).
  split; [apply extension_is_total|].
  split; [intros ext' H; symmetry; apply extension_is_sound, H|].
  rewrite <- Hs in Hp. rewrite (handleDownloadClick_saves now w Hp), Hs.
  repeat split.
Qed.

Lemma download_filename_by_media_type_witness :
  src (dom jpeg_result_page generatedImage) = "data:image/jpeg;base64,QUJD" /\
  Js.startsWith "data:" "data:image/jpeg;base64,QUJD" = true /\
  extension_is "data:image/jpeg;base64,QUJD" "jpeg" /\
  exists ext,
    extension_is "data:image/jpeg;base64,QUJD" ext /\
    (forall ext', extension_is "data:image/jpeg;base64,QUJD" ext' ->
     ext' = ext) /\
    saved (handleDownloadClick 1700000000000 jpeg_result_page)
    = app (saved jpeg_result_page)
        [("data:image/jpeg;base64,QUJD",
          "stylized-image-" ++ Js.of_N 1700000000000 ++ "." ++ ext)] /\
    shown (handleDownloadClick 1700000000000 jpeg_result_page)
    = shown jpeg_result_page /\
    journal (handleDownloadClick 1700000000000 jpeg_result_page)
    = journal jpeg_result_page.
Proof.
  assert (H : src (dom jpeg_result_page generatedImage)
              = "data:image/jpeg;base64,QUJD") by (vm_compute; reflexivity).
  split; [exact H|].
  split; [reflexivity|].
  split; [exact jpeg_uri_extension|].
  exact (download_filename_by_media_type jpeg_result_page 1700000000000
           "data:image/jpeg;base64,QUJD" H eq_refl).
Defined.

(** * Further properties of the asset cache worker *)

(** What [cache.addAll] leaves behind: the caches untouched, one [GET] per
    URL on the network, and either the responses to store, one per URL
    and each the network's ok answer, or nothing when some URL was not
    answered with an ok status. *)
Lemma fetch_all_spec (net : Sw.Request -> option Sw.Response)
  (urls : list string) (st : Sw.State) :
  snd (Sw.fetch_all net urls st)
  = Sw.mkState (Sw.caches st) (Sw.network st ++ map GET urls) /\
  match fst (Sw.fetch_all net urls st) with
  | Some l =>
      Forall2
        (fun u e => fst e = GET u /\ net (GET u) = Some (snd e)) urls l /\
      Forall (answers_ok net) urls
  | None => ~ Forall (answers_ok net) urls
  end.
Proof.
  revert st. induction urls as [|u urls IH]; intro st.
  - cbn. rewrite app_nil_r. destruct st. repeat split; constructor.
  - cbn [Sw.fetch_all Sw.fetch map].
    specialize (IH (Sw.mkState (Sw.caches st)
                      (Sw.network st ++ [Sw.mkRequest u "GET"]))).
    destruct (Sw.fetch_all net urls _) as [rs st2].
    cbn [fst snd Sw.caches Sw.network] in IH. destruct IH as [IH1 IH2].
    assert (Hst : st2
                  = Sw.mkState (Sw.caches st)
                      (Sw.network st ++ GET u :: map GET urls)).
    { rewrite IH1, <- app_assoc. reflexivity. }
    change (Sw.mkRequest u "GET") with (GET u).
    destruct (net (GET u)) as [resp|] eqn:En.
    + destruct rs as [l|].
      * destruct (Nat.leb 200 (Sw.status resp)
                  && Nat.ltb (Sw.status resp) 300
                  && negb (Nat.eqb (Sw.status resp) 206)) eqn:Eok;
          cbn [fst snd]; (split; [exact Hst|]).
        -- destruct IH2 as [H2 H3]. split.
           ++ constructor; [split; [reflexivity|exact En]|exact H2].
           ++ constructor; [exists resp; split; assumption|exact H3].
        -- intro H. inversion H as [|? ? (resp' & Hr & Hok) _]; subst.
           rewrite En in Hr. injection Hr as <-. congruence.
      * cbn [fst snd]. split; [exact Hst|].
        intro H. inversion H; subst. contradiction.
    + destruct rs as [l|]; cbn [fst snd]; (split; [exact Hst|]);
        intro H; inversion H as [|? ? (resp' & Hr & _) _]; subst;
        congruence.
Qed.

Lemma on_install_unfold (net : Sw.Request -> option Sw.Response)
  (st : Sw.State) :
  Sw.on_install net st
  = match
      Sw.fetch_all net Sw.urlsToCache
        (Sw.mkState
           (Sw.store_cache Sw.CACHE_NAME (named_cache (Sw.caches st))
              (Sw.caches st))
           (Sw.network st))
    with
    | (Some l, st1) =>
        (true,
         Sw.mkState
           (Sw.store_cache Sw.CACHE_NAME
              (fold_left (fun acc e => Sw.cache_put (fst e) (snd e) acc) l
                 (named_cache (Sw.caches st)))
              (Sw.caches st1))
           (Sw.network st1))
    | (None, st1) => (false, st1)
    end.
Proof. reflexivity. Qed.

(** X17: an install that succeeds has had every URL of the manifest
    answered by the network with an ok status other than 206, so one URL
    without such an answer fails the install; succeed or fail, the install
    puts one [GET] per manifest URL on the network, in the order of the
    manifest. *)
Theorem install_all_or_nothing (net : Sw.Request -> option Sw.Response)
  (st : Sw.State) :
  (fst (Sw.on_install net st) = true ->
   Forall (answers_ok net) Sw.urlsToCache) /\
  (forall u, In u Sw.urlsToCache -> ~ answers_ok net u ->
   fst (Sw.on_install net st) = false) /\
  Sw.network (snd (Sw.on_install net st))
  = (Sw.network st ++ map GET Sw.urlsToCache)%list.
Proof.
  rewrite on_install_unfold.
  set (st0 := Sw.mkState _ (Sw.network st)).
  destruct (fetch_all_spec net Sw.urlsToCache st0) as [H1 H2].
  destruct (Sw.fetch_all net Sw.urlsToCache st0) as [[l|] st1];
    cbn [fst snd] in *; rewrite H1; cbn [Sw.network].
  - split; [intros _; apply H2|]. split; [|reflexivity].
    intros u Hu Hn. destruct H2 as [_ H2]. rewrite Forall_forall in H2.
    destruct (Hn (H2 u Hu)).
  - split; [discriminate|]. split; reflexivity.
Qed.

Lemma install_all_or_nothing_witness :
  fst (Sw.on_install online upgraded_storage) = true /\
  Forall (answers_ok online) Sw.urlsToCache.
Proof.
  split; [reflexivity|].
  exact (proj1 (install_all_or_nothing online upgraded_storage) eq_refl).
Defined.

Lemma lookup_store_same (name : string) (c : Sw.Cache)
  (cs : Sw.CacheStorage) :
  Sw.lookup_cache name (Sw.store_cache name c cs) = Some c.
Proof.
  unfold Sw.lookup_cache. induction cs as [|[n c0] cs IH]; cbn.
  - rewrite String.eqb_refl. reflexivity.
  - destruct (n =? name) eqn:E; cbn; rewrite E; [reflexivity|exact IH].
Qed.

Lemma lookup_store_other (name other : string) (c : Sw.Cache)
  (cs : Sw.CacheStorage) :
  other <> name ->
  Sw.lookup_cache other (Sw.store_cache name c cs) = Sw.lookup_cache other cs.
Proof.
  intro Hne. unfold Sw.lookup_cache.
  induction cs as [|[n c0] cs IH]; cbn.
  - destruct (name =? other) eqn:E; [|reflexivity].
    apply String.eqb_eq in E. congruence.
  - destruct (n =? name) eqn:E; cbn.
    + apply String.eqb_eq in E. subst n.
      destruct (name =? other) eqn:E2; [|reflexivity].
      apply String.eqb_eq in E2. congruence.
    + destruct (n =? other); [reflexivity|exact IH].
Qed.

(** X18: an install never touches a cache under another name, and a
    failed install leaves the named cache with the entries it had (empty
    if it had to be created): nothing of a partly fetched manifest is
    stored. *)
Theorem install_keeps_other_caches (net : Sw.Request -> option Sw.Response)
  (st : Sw.State) (other : string) :
  other <> Sw.CACHE_NAME ->
  Sw.lookup_cache other (Sw.caches (snd (Sw.on_install net st)))
  = Sw.lookup_cache other (Sw.caches st) /\
  (fst (Sw.on_install net st) = false ->
   Sw.lookup_cache Sw.CACHE_NAME (Sw.caches (snd (Sw.on_install net st)))
   = Some (named_cache (Sw.caches st))).
Proof.
  intro Hne. rewrite on_install_unfold.
  set (st0 := Sw.mkState _ (Sw.network st)).
  destruct (fetch_all_spec net Sw.urlsToCache st0) as [H1 _].
  destruct (Sw.fetch_all net Sw.urlsToCache st0) as [[l|] st1];
    cbn [fst snd] in *; rewrite H1; subst st0; cbn [Sw.caches].
  - split; [|discriminate].
    rewrite !(lookup_store_other _ _ _ _ Hne). reflexivity.
  - split; [apply (lookup_store_other _ _ _ _ Hne)|].
    intros _. apply lookup_store_same.
Qed.

Lemma install_keeps_other_caches_witness :
  "image-style-transfer-v0" <> Sw.CACHE_NAME /\
  Sw.lookup_cache "image-style-transfer-v0"
    (Sw.caches (snd (Sw.on_install offline upgraded_storage)))
  = Sw.lookup_cache "image-style-transfer-v0" (Sw.caches upgraded_storage).
Proof.
  assert (H : "image-style-transfer-v0" <> Sw.CACHE_NAME) by discriminate.
  split; [exact H|].
  exact (proj1 (install_keeps_other_caches offline upgraded_storage
                  "image-style-transfer-v0" H)).
Defined.

Lemma find_filter_keep {A} (p q : A -> bool) (l : list A) :
  (forall x, p x = true -> q x = true) ->
  find p (filter q l) = find p l.
Proof.
  intro H. induction l as [|x l IH]; [reflexivity|].
  cbn. destruct (q x) eqn:Eq; cbn.
  - rewrite IH. reflexivity.
  - destruct (p x) eqn:Ep; [|exact IH].
    rewrite (H x Ep) in Eq. discriminate Eq.
Qed.

Lemma find_filter_none {A} (p q : A -> bool) (l : list A) :
  (forall x, p x = true -> q x = false) ->
  find p (filter q l) = None.
Proof.
  intro H. induction l as [|x l IH]; [reflexivity|].
  cbn. destruct (q x) eqn:Eq; [|exact IH].
  cbn. destruct (p x) eqn:Ep; [|exact IH].
  rewrite (H x Ep) in Eq. discriminate Eq.
Qed.

Lemma find_snoc {A} (p : A -> bool) (l : list A) (x : A) :
  find p (l ++ [x])
  = match find p l with
    | Some y => Some y
    | None => if p x then Some x else None
    end.
Proof.
  induction l as [|y l IH]; [reflexivity|].
  cbn. destruct (p y); [reflexivity|exact IH].
Qed.

Lemma without_fragment_free (u : string) :
  occurs "#" u = false -> Sw.without_fragment u = u.
Proof.
  induction u as [|x u IH]; intro H; [reflexivity|].
  cbn in H. apply orb_false_iff in H. destruct H as [Hx Hu].
  cbn [Sw.without_fragment]. rewrite Hx, (IH Hu). reflexivity.
Qed.

(** [cache.put] then [cache.match], for [GET] requests without a
    fragment: the entry put is found under its own URL and hides nothing
    under another URL. *)
Lemma cache_match_put (u u' : string) (resp : Sw.Response) (c : Sw.Cache) :
  occurs "#" u = false -> occurs "#" u' = false ->
  Sw.cache_match (Sw.cache_put (GET u) resp c) (GET u')
  = if u =? u' then Some resp else Sw.cache_match c (GET u').
Proof.
  intros Hu Hu'. unfold Sw.cache_match, Sw.cache_put. rewrite find_snoc.
  unfold Sw.request_matches. cbn [fst snd GET Sw.method Sw.url].
  cbn [String.eqb Ascii.eqb Bool.eqb andb].
  rewrite (without_fragment_free u Hu), (without_fragment_free u' Hu').
  destruct (u =? u') eqn:E.
  - apply String.eqb_eq in E. subst u'.
    rewrite find_filter_none; [reflexivity|].
    intros x Hx. rewrite Hx. reflexivity.
  - rewrite find_filter_keep.
    + destruct (find _ c); reflexivity.
    + intros x Hx. apply String.eqb_eq in Hx. rewrite Hx, String.eqb_sym, E.
      reflexivity.
Qed.

Lemma fold_put_match (net : Sw.Request -> option Sw.Response)
  (urls : list string) (l : list (Sw.Request * Sw.Response)) (c : Sw.Cache)
  (u' : string) :
  Forall (fun u => occurs "#" u = false) urls -> occurs "#" u' = false ->
  Forall2 (fun u e => fst e = GET u /\ net (GET u) = Some (snd e)) urls l ->
  Sw.cache_match
    (fold_left (fun acc e => Sw.cache_put (fst e) (snd e) acc) l c) (GET u')
  = if existsb (String.eqb u') urls then net (GET u')
    else Sw.cache_match c (GET u').
Proof.
  intros Hf Hu' H. revert c Hf.
  induction H as [|u [rq r] urls l [Hq Hn] _ IH]; intros c Hf.
  - reflexivity.
  - inversion Hf as [|? ? Hu Hf']; subst.
    cbn [fold_left existsb fst snd] in *. subst rq. rewrite (IH _ Hf').
    destruct (existsb (String.eqb u') urls);
      [rewrite orb_true_r; reflexivity|].
    rewrite (cache_match_put u u' r c Hu Hu'), String.eqb_sym, orb_false_r.
    destruct (u' =? u) eqn:E; [|reflexivity].
    apply String.eqb_eq in E. subst u'. symmetry. exact Hn.
Qed.

Lemma manifest_no_fragment :
  Forall (fun u => occurs "#" u = false) Sw.urlsToCache.
Proof. repeat constructor. Qed.

Lemma existsb_eqb_in (u : string) (urls : list string) :
  In u urls -> existsb (String.eqb u) urls = true.
Proof.
  intro H. apply existsb_exists. exists u. split; [exact H|].
  apply String.eqb_refl.
Qed.

(** X19: after a successful install every URL of the manifest is matched
    in the named cache, and the response matched is the one the network
    gave for it during the install. *)
Theorem install_stores_manifest (net : Sw.Request -> option Sw.Response)
  (st : Sw.State) (u : string) :
  fst (Sw.on_install net st) = true -> In u Sw.urlsToCache ->
  exists c resp,
    Sw.lookup_cache Sw.CACHE_NAME (Sw.caches (snd (Sw.on_install net st)))
    = Some c /\
    net (GET u) = Some resp /\
    Sw.cache_match c (GET u) = Some resp.
Proof.
  rewrite on_install_unfold.
  set (st0 := Sw.mkState _ (Sw.network st)).
  destruct (fetch_all_spec net Sw.urlsToCache st0) as [H1 H2].
  destruct (Sw.fetch_all net Sw.urlsToCache st0) as [[l|] st1];
    cbn [fst snd] in *; [|discriminate].
  intros _ Hu. destruct H2 as [H2 H3].
  assert (Hok : answers_ok net u)
    by (rewrite Forall_forall in H3; exact (H3 u Hu)).
  destruct Hok as (resp & Hr & _).
  eexists. exists resp.
  split; [apply lookup_store_same|]. split; [exact Hr|].
  assert (Hf : occurs "#" u = false).
  { pose proof manifest_no_fragment as Hm. rewrite Forall_forall in Hm.
    exact (Hm u Hu). }
  rewrite (fold_put_match net Sw.urlsToCache l _ u manifest_no_fragment Hf H2).
  rewrite (existsb_eqb_in u _ Hu). exact Hr.
Qed.

Lemma install_stores_manifest_witness :
  fst (Sw.on_install online upgraded_storage) = true /\
  In "/index.css" Sw.urlsToCache /\
  exists c resp,
    Sw.lookup_cache Sw.CACHE_NAME
      (Sw.caches (snd (Sw.on_install online upgraded_storage)))
    = Some c /\
    online (GET "/index.css") = Some resp /\
    Sw.cache_match c (GET "/index.css") = Some resp.
Proof.
  split; [reflexivity|].
  split; [cbn; tauto|].
  exact (install_stores_manifest online upgraded_storage "/index.css"
           eq_refl (or_intror (or_intror (or_introl eq_refl)))).
Defined.

(** X20: install and fetch compose into offline use: after a successful
    install on an origin without caches, a [GET] for any URL of the
    manifest is answered with the response stored at install time,
    without a network call, whatever the network would answer now. *)
Theorem installed_manifest_served_offline
  (net net' : Sw.Request -> option Sw.Response) (nw : list Sw.Request)
  (u : string) :
  fst (Sw.on_install net (Sw.mkState [] nw)) = true ->
  In u Sw.urlsToCache ->
  let st' := snd (Sw.on_install net (Sw.mkState [] nw)) in
  Sw.on_fetch net' (GET u) st' = (net (GET u), st') /\
  net (GET u) <> None.
Proof.
  intros Hi Hu st'. subst st'.
  destruct (install_fresh_storage net nw) as [c Hc].
  pose proof (lookup_store_same Sw.CACHE_NAME c []) as Hl.
  change (Sw.store_cache Sw.CACHE_NAME c []) with [(Sw.CACHE_NAME, c)] in Hl.
  rewrite <- Hc in Hl.
  revert Hi Hl Hc. rewrite on_install_unfold.
  set (st0 := Sw.mkState _ (Sw.network _)).
  destruct (fetch_all_spec net Sw.urlsToCache st0) as [H1 H2].
  destruct (Sw.fetch_all net Sw.urlsToCache st0) as [[l|] st1];
    cbn [fst snd] in *; [|discriminate].
  intros _ Hl Hc. destruct H2 as [H2 H3].
  cbn [Sw.caches] in Hl, Hc.
  rewrite lookup_store_same in Hl. injection Hl as Hl.
  assert (Hok : answers_ok net u)
    by (rewrite Forall_forall in H3; exact (H3 u Hu)).
  destruct Hok as (resp & Hr & _).
  assert (Hm : Sw.cache_match c (GET u) = Some resp).
  { assert (Hf : occurs "#" u = false).
    { pose proof manifest_no_fragment as Hm. rewrite Forall_forall in Hm.
      exact (Hm u Hu). }
    rewrite <- Hl.
    rewrite (fold_put_match net Sw.urlsToCache l _ u
               manifest_no_fragment Hf H2).
    rewrite (existsb_eqb_in u _ Hu). exact Hr. }
  split; [|rewrite Hr; discriminate].
  rewrite Hr. apply on_fetch_hit. cbn [Sw.caches]. rewrite Hc.
  rewrite caches_match_single. exact Hm.
Qed.

Lemma installed_manifest_served_offline_witness :
  fst (Sw.on_install online (Sw.mkState [] [])) = true /\
  In "/" Sw.urlsToCache /\
  Sw.on_fetch offline (GET "/") (snd (Sw.on_install online (Sw.mkState [] [])))
  = (online (GET "/"), snd (Sw.on_install online (Sw.mkState [] []))).
Proof.
  split; [reflexivity|].
  split; [cbn; tauto|].
  exact (proj1
    (installed_manifest_served_offline online offline [] "/"
       eq_refl (or_introl eq_refl))).
Defined.

(** X21: a response fetched from the network is never written back: a
    request that misses the caches goes to the network again, and misses
    the caches again, every time it is made. *)
Theorem miss_is_never_cached (net : Sw.Request -> option Sw.Response)
  (req : Sw.Request) (st : Sw.State) :
  Sw.caches_match (Sw.caches st) req = None ->
  let st1 := snd (Sw.on_fetch net req st) in
  let st2 := snd (Sw.on_fetch net req st1) in
  fst (Sw.on_fetch net req st) = net req /\
  fst (Sw.on_fetch net req st1) = net req /\
  Sw.caches_match (Sw.caches st2) req = None /\
  Sw.network st2 = (Sw.network st ++ [req; req])%list.
Proof.
  intros H st1 st2. subst st2 st1.
  rewrite (on_fetch_miss net req st H). cbn [fst snd].
  rewrite (on_fetch_miss net req
             (Sw.mkState (Sw.caches st) (Sw.network st ++ [req])) H).
  cbn [fst snd Sw.caches Sw.network].
  rewrite <- app_assoc. repeat split. exact H.
Qed.

Lemma miss_is_never_cached_witness :
  Sw.caches_match (Sw.caches upgraded_storage) (GET "/api/data") = None /\
  Sw.network
    (snd (Sw.on_fetch online (GET "/api/data")
            (snd (Sw.on_fetch online (GET "/api/data") upgraded_storage))))
  = (Sw.network upgraded_storage ++ [GET "/api/data"; GET "/api/data"])%list.
Proof.
  split; [reflexivity|].
  exact (proj2 (proj2 (proj2
    (miss_is_never_cached online (GET "/api/data") upgraded_storage
       eq_refl)))).
Defined.

(** * The output area, once more *)

Lemma run_exclusive_witness :
  exclusive fresh_page /\
  exclusive
    (run fresh_page
       [ FileChosen (Some png_file);
         ReadSettled 0 (Loaded "data:image/png;base64,QUJD");
         GenerateClicked;
         GenerateSettled 0
           (Api.Returned (response_of [image_part "image/png" "REVG"]));
         DownloadClicked 1700000000000 ]).
Proof.
  split; [left; reflexivity|].
  exact (run_exclusive
           [ FileChosen (Some png_file);
             ReadSettled 0 (Loaded "data:image/png;base64,QUJD");
             GenerateClicked;
             GenerateSettled 0
               (Api.Returned (response_of [image_part "image/png" "REVG"]));
             DownloadClicked 1700000000000 ]
           fresh_page (or_introl eq_refl)).
Defined.
